(** * The settings tab of the OpenCode plugin (src/SettingsTab.ts)

    A shallow embedding of [expandTilde] and of the handlers that
    [OpenCodeSettingTab] installs on its fields, with the fragment of
    ECMAScript they run on: strings as sequences of UTF-16 code units,
    [String.prototype.trim], [startsWith], [replace] with a string pattern,
    [parseInt], and a timer queue for [setTimeout]/[clearTimeout]. *)

From Stdlib Require Import ZArith NArith String Ascii List Bool Lia.
Import ListNotations.

(** ** ECMAScript strings and numbers *)

Module JS.

(** A string value is a finite sequence of 16-bit code units. *)
Definition jsstring : Type := list N.

(** An ASCII literal of the source, as code units. *)
Definition js (s : string) : jsstring :=
  map N_of_ascii (list_ascii_of_string s).

Fixpoint eqb (s t : jsstring) : bool :=
  match s, t with
  | [], [] => true
  | c :: s', d :: t' => (c =? d)%N && eqb s' t'
  | _, _ => false
  end.

(** ToBoolean on a string: only the empty string is falsy. *)
Definition truthy (s : jsstring) : bool :=
  match s with
  | [] => false
  | _ :: _ => true
  end.

(** [a || b] on strings. *)
Definition or_else (a b : jsstring) : jsstring :=
  if truthy a then a else b.

(** [s.startsWith(p)] (position 0). *)
Fixpoint startsWith (s p : jsstring) {struct p} : bool :=
  match p with
  | [] => true
  | d :: p' =>
      match s with
      | [] => false
      | c :: s' => (c =? d)%N && startsWith s' p'
      end
  end.

(** WhiteSpace and LineTerminator code points, the set that [trim] and
    [parseInt] strip: TAB, LF, VT, FF, CR, SP, NBSP, U+1680,
    U+2000..U+200A, LS, PS, U+202F, U+205F, U+3000, ZWNBSP. *)
Definition isWhiteSpace (c : N) : bool :=
  ((9 <=? c) && (c <=? 13) || (c =? 32) || (c =? 160) || (c =? 5760)
   || (8192 <=? c) && (c <=? 8202) || (c =? 8232) || (c =? 8233)
   || (c =? 8239) || (c =? 8287) || (c =? 12288) || (c =? 65279))%N.

Fixpoint trimStart (s : jsstring) : jsstring :=
  match s with
  | [] => []
  | c :: s' => if isWhiteSpace c then trimStart s' else s
  end.

Definition trimEnd (s : jsstring) : jsstring :=
  rev (trimStart (rev s)).

Definition trim (s : jsstring) : jsstring :=
  trimEnd (trimStart s).

Definition DOLLAR : N := 36.
Definition AMPERSAND : N := 38.
Definition APOSTROPHE : N := 39.
Definition BACKTICK : N := 96.

(** GetSubstitution for a match without captures: in the replacement
    text [$$] stands for a dollar sign, [$&] for the matched text,
    [$`] for the text before the match and [$'] for the text after it.
    A dollar sign before anything else (a digit or [<] included, there
    being no capture to refer to) is copied as it is. *)
Fixpoint GetSubstitution (matched before after template : jsstring)
  : jsstring :=
  match template with
  | [] => []
  | c :: rest =>
      if (c =? DOLLAR)%N then
        match rest with
        | [] => [c]
        | d :: rest' =>
            if (d =? DOLLAR)%N then
              DOLLAR :: GetSubstitution matched before after rest'
            else if (d =? BACKTICK)%N then
              before ++ GetSubstitution matched before after rest'
            else if (d =? AMPERSAND)%N then
              matched ++ GetSubstitution matched before after rest'
            else if (d =? APOSTROPHE)%N then
              after ++ GetSubstitution matched before after rest'
            else c :: GetSubstitution matched before after rest
        end
      else c :: GetSubstitution matched before after rest
  end.

(** [whole.replace(pattern, replacement)] with a string pattern: the
    first occurrence only, the replacement read by [GetSubstitution].
    [seen] is the text before [s], reversed. *)
Fixpoint replace_at (seen s pattern replacement : jsstring) : jsstring :=
  if startsWith s pattern then
    rev seen
      ++ GetSubstitution pattern (rev seen)
           (skipn (length pattern) s) replacement
      ++ skipn (length pattern) s
  else
    match s with
    | [] => rev seen
    | c :: s' => replace_at (c :: seen) s' pattern replacement
    end.

Definition replace (whole pattern replacement : jsstring) : jsstring :=
  replace_at [] whole pattern replacement.

(** The numbers this file meets: NaN and the integers.  [parseInt]
    returns the double nearest to the integer it reads; rounding is
    monotone and exact below 2^53, so every comparison the handlers
    make with 0 and 65536 has the outcome it has on the integer. *)
Inductive Number : Type :=
| NaN
| Num (z : Z).

Definition isNaN (x : Number) : bool :=
  match x with
  | NaN => true
  | Num _ => false
  end.

(** [x > y] and [x < y]; false when an operand is NaN. *)
Definition gt (x y : Number) : bool :=
  match x, y with
  | Num a, Num b => (b <? a)%Z
  | _, _ => false
  end.

Definition lt (x y : Number) : bool :=
  match x, y with
  | Num a, Num b => (a <? b)%Z
  | _, _ => false
  end.

(** The value of a code unit as a digit: 0-9, then a-z and A-Z as
    10..35. *)
Definition digitValue (c : N) : option Z :=
  if ((48 <=? c) && (c <=? 57))%N then Some (Z.of_N (c - 48))
  else if ((97 <=? c) && (c <=? 122))%N then Some (Z.of_N (c - 87))
  else if ((65 <=? c) && (c <=? 90))%N then Some (Z.of_N (c - 55))
  else None.

(** The longest prefix of radix-[R] digits, read as an integer; [acc]
    is [None] until a digit has been read. *)
Fixpoint readDigits (R : Z) (s : jsstring) (acc : option Z) : option Z :=
  match s with
  | [] => acc
  | c :: s' =>
      match digitValue c with
      | Some d =>
          if (d <? R)%Z then
            readDigits R s'
              (Some (R * match acc with Some a => a | None => 0 end + d)%Z)
          else acc
      | None => acc
      end
  end.

Definition MINUS : N := 45.
Definition PLUS : N := 43.

(** [parseInt(input, radix)] for an integer [radix]. *)
Definition parseInt (input : jsstring) (radix : Z) : Number :=
  let S := trimStart input in
  let sign := if startsWith S [MINUS] then (-1)%Z else 1%Z in
  let S := if startsWith S [MINUS] || startsWith S [PLUS]
           then skipn 1 S else S in
  if ((radix =? 0) || (2 <=? radix) && (radix <=? 36))%Z then
    let stripPrefix := ((radix =? 0) || (radix =? 16))%Z in
    let hex := stripPrefix
               && (startsWith S (js "0x") || startsWith S (js "0X")) in
    let R := if hex then 16%Z
             else if (radix =? 0)%Z then 10%Z else radix in
    let S := if hex then skipn 2 S else S in
    match readDigits R S None with
    | None => NaN
    | Some mathInt => Num (sign * mathInt)
    end
  else NaN.

End JS.

Import JS.

(** ** expandTilde *)

Section ExpandTilde.

(** [os.homedir()]. *)
Variable homedir : jsstring.

Definition expandTilde (path : jsstring) : jsstring :=
  if eqb path (js "~") then homedir
  else if startsWith path (js "~/") then replace path (js "~") homedir
  else path.

End ExpandTilde.

(** ** The plugin, as the settings tab uses it *)

(** The process states: the keys of [statusText] and [statusClass]. *)
Inductive ProcessState : Type :=
| stopped
| starting
| running
| error.

(** [this.plugin.settings], with the fields the tab reads and writes. *)
Record OpenCodeSettings : Type := mkSettings {
  port : Number;
  hostname : jsstring;
  opencodePath : jsstring;
  projectDirectory : jsstring;
  autoStart : bool
}.

(** A thrown [Error] and the [Stats] that [statSync] returns. *)
Record Error : Type := mkError { message : jsstring }.
Record Stats : Type := mkStats { isDirectory : bool }.

Inductive Completion (A : Type) : Type :=
| Normal (value : A)
| Throw (exn : Error).

Arguments Normal {A} value.
Arguments Throw {A} exn.

(** What a handler does to its collaborators, in order. *)
Inductive Call : Type :=
| CallSaveSettings (snapshot : OpenCodeSettings)
| CallUpdateProjectDirectory (directory : jsstring)
| NewNotice (text : jsstring)
| CallExistsSync (path : jsstring)
| CallStatSync (path : jsstring).

Record World : Type := mkWorld {
  settings : OpenCodeSettings;
  trace : list Call
}.

(** Handlers run in a state and exception monad over [World]. *)
Definition Eff (A : Type) : Type := World -> Completion A * World.

Definition ret {A : Type} (x : A) : Eff A :=
  fun w => (Normal x, w).

Definition bind {A B : Type} (m : Eff A) (k : A -> Eff B) : Eff B :=
  fun w =>
    match m w with
    | (Normal x, w') => k x w'
    | (Throw e, w') => (Throw e, w')
    end.

Definition tryCatch {A : Type} (body : Eff A) (handler : Error -> Eff A)
  : Eff A :=
  fun w =>
    match body w with
    | (Normal x, w') => (Normal x, w')
    | (Throw e, w') => handler e w'
    end.

Notation "x <- m ;; k" := (bind m (fun x => k))
  (at level 61, m at next level, right associativity).
Notation "m ;;; k" := (bind m (fun _ => k))
  (at level 61, right associativity).

Definition record (c : Call) : Eff unit :=
  fun w => (Normal tt, mkWorld (settings w) (trace w ++ [c])).

Definition modify (f : OpenCodeSettings -> OpenCodeSettings) : Eff unit :=
  fun w => (Normal tt, mkWorld (f (settings w)) (trace w)).

Definition set_port (p : Number) (s : OpenCodeSettings) : OpenCodeSettings :=
  mkSettings p (hostname s) (opencodePath s) (projectDirectory s)
    (autoStart s).

Definition set_hostname (h : jsstring) (s : OpenCodeSettings)
  : OpenCodeSettings :=
  mkSettings (port s) h (opencodePath s) (projectDirectory s) (autoStart s).

Definition set_opencodePath (p : jsstring) (s : OpenCodeSettings)
  : OpenCodeSettings :=
  mkSettings (port s) (hostname s) p (projectDirectory s) (autoStart s).

(** Modelled from the spec: [saveSettings], a method of the plugin class
    (main.ts), writes the configuration object to the persisted store and
    leaves the object as it is.  The trace keeps the object it was called
    on. *)
Definition saveSettings : Eff unit :=
  fun w => record (CallSaveSettings (settings w)) w.

Definition Notice (text : jsstring) : Eff unit :=
  record (NewNotice text).

(** *** The text fields of [display] *)

(** Port: lines 41-47. *)
Definition onChange_port (value : jsstring) : Eff unit :=
  let port := parseInt value 10 in
  if negb (isNaN port) && gt port (Num 0) && lt port (Num 65536) then
    modify (set_port port) ;;;
    saveSettings
  else ret tt.

(** Hostname: lines 57-60. *)
Definition onChange_hostname (value : jsstring) : Eff unit :=
  modify (set_hostname (or_else value (js "127.0.0.1"))) ;;;
  saveSettings.

(** OpenCode path: lines 72-75. *)
Definition onChange_opencodePath (value : jsstring) : Eff unit :=
  modify (set_opencodePath (or_else value (js "opencode"))) ;;;
  saveSettings.

(** *** validateAndSetProjectDirectory *)

(** [/^[A-Za-z]:\\/]: an ASCII letter, a colon, a backslash. *)
Definition isAsciiLetter (c : N) : bool :=
  ((65 <=? c) && (c <=? 90) || (97 <=? c) && (c <=? 122))%N.

Definition matchDriveLetter (s : jsstring) : bool :=
  match s with
  | c0 :: c1 :: c2 :: _ => isAsciiLetter c0 && (c1 =? 58)%N && (c2 =? 92)%N
  | _ => false
  end.

(** How the [try] block is left: by one of its [return]s, or at its end. *)
Inductive Flow : Type :=
| Returned
| FellThrough.

Section ProjectDirectory.

(** The environment: the home directory, the two file system calls
    (each may throw), and the plugin's [updateProjectDirectory] (main.ts),
    any function of the directory and the settings, which may throw.  Its
    call is one step of the handler. *)
Variable homedir : jsstring.
Variable fs_existsSync : jsstring -> Completion bool.
Variable fs_statSync : jsstring -> Completion Stats.
Variable plugin_updateProjectDirectory :
  jsstring -> OpenCodeSettings -> Completion unit * OpenCodeSettings.

Definition existsSync (path : jsstring) : Eff bool :=
  fun w =>
    (fs_existsSync path,
     mkWorld (settings w) (trace w ++ [CallExistsSync path])).

Definition statSync (path : jsstring) : Eff Stats :=
  fun w =>
    (fs_statSync path,
     mkWorld (settings w) (trace w ++ [CallStatSync path])).

Definition updateProjectDirectory (directory : jsstring) : Eff unit :=
  fun w =>
    let (c, s) := plugin_updateProjectDirectory directory (settings w) in
    (c, mkWorld s (trace w ++ [CallUpdateProjectDirectory directory])).

(** The absolute-form test of line 132, true when the path is refused. *)
Definition notAbsolute (trimmed : jsstring) : bool :=
  negb (startsWith trimmed (js "/"))
  && negb (startsWith trimmed (js "~"))
  && negb (matchDriveLetter trimmed).

Definition validateAndSetProjectDirectory (value : jsstring) : Eff unit :=
  let trimmed := trim value in
  if negb (truthy trimmed) then
    updateProjectDirectory []
  else if notAbsolute trimmed then
    Notice (js "Project directory must be an absolute path (or start with ~)")
  else
    let expanded := expandTilde homedir trimmed in
    flow <- tryCatch
      (found <- existsSync expanded ;;
       if negb found then
         Notice (js "Project directory does not exist") ;;;
         ret Returned
       else
         stat <- statSync expanded ;;
         if negb (isDirectory stat) then
           Notice (js "Project directory path is not a directory") ;;;
           ret Returned
         else ret FellThrough)
      (fun error =>
         Notice (js "Failed to validate path: " ++ message error) ;;;
         ret Returned) ;;
    match flow with
    | Returned => ret tt
    | FellThrough => updateProjectDirectory expanded
    end.

End ProjectDirectory.

(** ** The debounced project-directory field *)

(** A pending [setTimeout]: its handle, the time it is due, and the
    [value] its callback closes over (every timer of the tab calls
    [validateAndSetProjectDirectory(value)]). *)
Record Timer : Type := mkTimer {
  handle : positive;
  due : N;
  closure_value : jsstring
}.

(** The tab with the host's clock and timer queue.  Handles are fresh
    and truthy; [fired] lists the handles whose callbacks have run. *)
Record Tab : Type := mkTab {
  world : World;
  validateTimeout : option positive;
  timers : list Timer;
  now : N;
  nextHandle : positive;
  fired : list positive
}.

Definition newTab (w : World) : Tab :=
  mkTab w None [] 0 1 [].

(** The queue is kept in firing order: by due time, then by age. *)
Fixpoint enqueue (tm : Timer) (queue : list Timer) : list Timer :=
  match queue with
  | [] => [tm]
  | q :: queue' =>
      if (due q <=? due tm)%N then q :: enqueue tm queue'
      else tm :: queue
  end.

Definition clearTimeout (h : positive) (tab : Tab) : Tab :=
  mkTab (world tab) (validateTimeout tab)
    (filter (fun tm => negb (handle tm =? h)%positive) (timers tab))
    (now tab) (nextHandle tab) (fired tab).

Definition setTimeout (value : jsstring) (delay : N) (tab : Tab)
  : positive * Tab :=
  let h := nextHandle tab in
  (h,
   mkTab (world tab) (validateTimeout tab)
     (enqueue (mkTimer h (now tab + delay) value) (timers tab))
     (now tab) (Pos.succ h) (fired tab)).

Definition set_validateTimeout (h : positive) (tab : Tab) : Tab :=
  mkTab (world tab) (Some h) (timers tab) (now tab) (nextHandle tab)
    (fired tab).

(** Project directory: lines 87-95. *)
Definition onChange_projectDirectory (value : jsstring) (tab : Tab) : Tab :=
  let tab :=
    match validateTimeout tab with
    | Some h => clearTimeout h tab
    | None => tab
    end in
  let (h, tab) := setTimeout value 500 tab in
  set_validateTimeout h tab.

Inductive Event : Type :=
| Edit (value : jsstring)
| Wait (ms : N).

Module EventLoop.

Section Host.

Variable homedir : jsstring.
Variable fs_existsSync : jsstring -> Completion bool.
Variable fs_statSync : jsstring -> Completion Stats.
Variable plugin_updateProjectDirectory :
  jsstring -> OpenCodeSettings -> Completion unit * OpenCodeSettings.

(** The callback of a timer; what it throws is lost with its promise. *)
Definition fire (w : World) (tm : Timer) : World :=
  snd (validateAndSetProjectDirectory homedir fs_existsSync fs_statSync
         plugin_updateProjectDirectory (closure_value tm) w).

Definition isDue (t : N) (tm : Timer) : bool := (due tm <=? t)%N.

(** [ms] milliseconds pass: the timers that come due run, in queue
    order, and leave the queue. *)
Definition elapse (ms : N) (tab : Tab) : Tab :=
  let t := (now tab + ms)%N in
  let ready := filter (isDue t) (timers tab) in
  mkTab (fold_left fire ready (world tab)) (validateTimeout tab)
    (filter (fun tm => negb (isDue t tm)) (timers tab))
    t (nextHandle tab) (fired tab ++ map handle ready).

Definition step (tab : Tab) (ev : Event) : Tab :=
  match ev with
  | Edit value => onChange_projectDirectory value tab
  | Wait ms => elapse ms tab
  end.

Definition run (events : list Event) (tab : Tab) : Tab :=
  fold_left step events tab.

End Host.

End EventLoop.

(** A burst of edits: a first one, then more, each [gap] ms after the one
    before it. *)
Definition burst (first : jsstring) (more : list (N * jsstring))
  : list Event :=
  Edit first :: flat_map (fun e => [Wait (fst e); Edit (snd e)]) more.

Definition lastValue (first : jsstring) (more : list (N * jsstring))
  : jsstring :=
  last (map snd more) first.

(** ** The server status panel *)

(** What a click listener does, in order. *)
Inductive Action : Type :=
| startServer
| stopServer
| rerender
| preventDefault
| windowOpen (url : jsstring).

(** The elements [renderServerStatus] creates: rows of leaves. *)
Inductive Leaf : Type :=
| span (text cls : jsstring)
| anchor (text href : jsstring) (click : list Action)
| button (text cls : jsstring) (click : list Action).

Record Row : Type := div { cls : jsstring; children : list Leaf }.

Definition statusText (state : ProcessState) : jsstring :=
  match state with
  | stopped => js "Stopped"
  | starting => js "Starting..."
  | running => js "Running"
  | error => js "Error"
  end.

Definition statusClass (state : ProcessState) : jsstring :=
  match state with
  | stopped => js "status-stopped"
  | starting => js "status-starting"
  | running => js "status-running"
  | error => js "status-error"
  end.

Definition isState (a b : ProcessState) : bool :=
  match a, b with
  | stopped, stopped | starting, starting
  | running, running | error, error => true
  | _, _ => false
  end.

Section ServerStatus.

(** [this.plugin.getServerUrl()]. *)
Variable getServerUrl : jsstring.

(** The container after [renderServerStatus], for the state that
    [getProcessState()] reports. *)
Definition renderServerStatus (state : ProcessState) : list Row :=
  [div (js "opencode-status-line")
     [span (js "Status: ") [];
      span (statusText state)
        (js "opencode-status-badge " ++ statusClass state)]]
  ++ (if isState state running then
        [div (js "opencode-status-line")
           [span (js "URL: ") [];
            anchor getServerUrl getServerUrl
              [preventDefault; windowOpen getServerUrl]]]
      else [])
  ++ [div (js "opencode-settings-buttons")
        ((if isState state stopped || isState state error then
            [button (js "Start Server") (js "mod-cta")
               [startServer; rerender]]
          else [])
         ++ (if isState state running then
               [button (js "Stop Server") [] [stopServer; rerender];
                button (js "Restart Server") (js "mod-warning")
                  [stopServer; startServer; rerender]]
             else [])
         ++ (if isState state starting then
               [span (js "Please wait...") (js "opencode-status-waiting")]
             else []))].

End ServerStatus.

(** The buttons of a rendering, each with its label and its listener. *)
Definition buttonsOf (leaves : list Leaf) : list (jsstring * list Action) :=
  flat_map
    (fun leaf =>
       match leaf with
       | button text _ click => [(text, click)]
       | _ => []
       end)
    leaves.

Definition controls (rows : list Row) : list (jsstring * list Action) :=
  flat_map (fun row => buttonsOf (children row)) rows.

(** *** Click listeners *)

Section Listener.

(** The plugin behind the panel: its state, the process state that
    [getProcessState()] reports of it, and what [startServer()] (once its
    promise has settled) and [stopServer()] make of it.  The three methods
    belong to main.ts and are taken as they come. *)
Variable Plugin : Type.
Variable getProcessState : Plugin -> ProcessState.
Variable plugin_startServer : Plugin -> Plugin.
Variable plugin_stopServer : Plugin -> Plugin.

(** A click listener run on the plugin: each action with the process
    state it is taken in, and the plugin as the listener leaves it.
    Nothing comes between [stopServer()] and the [startServer()] after it:
    the first is not awaited. *)
Fixpoint runListener (click : list Action) (plugin : Plugin)
  : list (Action * ProcessState) * Plugin :=
  match click with
  | [] => ([], plugin)
  | action :: rest =>
      let plugin' :=
        match action with
        | startServer => plugin_startServer plugin
        | stopServer => plugin_stopServer plugin
        | _ => plugin
        end in
      let (taken, final) := runListener rest plugin' in
      ((action, getProcessState plugin) :: taken, final)
  end.

End Listener.

Arguments runListener {Plugin}.

(** A plugin that is its process state: starting settles in [running],
    stopping leaves [stopped]. *)
Definition sampleStart (state : ProcessState) : ProcessState :=
  match state with
  | stopped | error => running
  | _ => state
  end.

Definition sampleStop (state : ProcessState) : ProcessState :=
  match state with
  | starting | running => stopped
  | _ => state
  end.

(** ** The rest of [display] *)

Definition set_autoStart (b : bool) (s : OpenCodeSettings)
  : OpenCodeSettings :=
  mkSettings (port s) (hostname s) (opencodePath s) (projectDirectory s) b.

(** Auto-start server: lines 109-112. *)
Definition onChange_autoStart (value : bool) : Eff unit :=
  modify (set_autoStart value) ;;;
  saveSettings.

(** The decimal digits of a natural number, most significant first;
    [fuel] bounds their number. *)
Fixpoint digitsOf (fuel : nat) (n : N) : jsstring :=
  match fuel with
  | O => []
  | S fuel' =>
      if (n <? 10)%N then [(48 + n)%N]
      else digitsOf fuel' (n / 10) ++ [(48 + n mod 10)%N]
  end.

Definition decimal (n : N) : jsstring :=
  digitsOf (S (N.to_nat (N.log2 n))) n.

(** [x.toString()]: NaN, or the decimal digits of an integer with its
    sign.  From 10^21 on a number prints with an exponent, which is left
    out here ([None]). *)
Definition toString (x : Number) : option jsstring :=
  match x with
  | NaN => Some (js "NaN")
  | Num z =>
      if (Z.abs z <? 10 ^ 21)%Z then
        Some ((if (z <? 0)%Z then [MINUS] else []) ++ decimal (Z.abs_N z))
      else None
  end.

(** What [display] puts into the fields with [setValue]: lines 40, 56,
    71, 86 and 108. *)
Record Fields : Type := mkFields {
  portText : option jsstring;
  hostnameText : jsstring;
  opencodePathText : jsstring;
  projectDirectoryText : jsstring;
  autoStartToggle : bool
}.

Definition displayedValues (s : OpenCodeSettings) : Fields :=
  mkFields (toString (port s)) (hostname s) (opencodePath s)
    (projectDirectory s) (autoStart s).

(** A code unit that is a decimal digit. *)
Definition isDecimalDigit (c : N) : bool :=
  ((48 <=? c) && (c <=? 57))%N.

(** The value of the last edit among some events. *)
Definition lastEdit (events : list Event) : option jsstring :=
  fold_left
    (fun acc ev =>
       match ev with
       | Edit value => Some value
       | Wait _ => acc
       end)
    events None.

(** The anchors of a rendering, each with its text, target and listener. *)
Definition anchorsOf (rows : list Row)
  : list (jsstring * jsstring * list Action) :=
  flat_map
    (fun row =>
       flat_map
         (fun leaf =>
            match leaf with
            | anchor text href click => [(text, href, click)]
            | _ => []
            end)
         (children row))
    rows.

(** ** Specification-side vocabulary *)

(** A port number: an integer strictly between 0 and 65536. *)
Definition validPort (p : Number) : Prop :=
  exists z : Z, p = Num z /\ (0 < z < 65536)%Z.

(** A settings object and a world to try the handlers on. *)
Definition sampleSettings : OpenCodeSettings :=
  mkSettings (Num 14096) (js "127.0.0.1") (js "opencode") [] false.

Definition sampleWorld : World := mkWorld sampleSettings [].

(** The calls of a trace that reach [updateProjectDirectory]. *)
Definition isUpdate (c : Call) : bool :=
  match c with
  | CallUpdateProjectDirectory _ => true
  | _ => false
  end.

(** The file system calls of a trace, with the path each was given. *)
Definition fsPath (c : Call) : option jsstring :=
  match c with
  | CallExistsSync p | CallStatSync p => Some p
  | _ => None
  end.

Definition isNotice (c : Call) : bool :=
  match c with
  | NewNotice _ => true
  | _ => false
  end.

(** The ways a non-empty trimmed input fails validation: it is not of
    absolute form, the expanded path does not exist, it is not a
    directory, or one of the two file system calls throws. *)
Definition validationFails (homedir : jsstring)
    (fs_existsSync : jsstring -> Completion bool)
    (fs_statSync : jsstring -> Completion Stats)
    (trimmed : jsstring) : Prop :=
  let expanded := expandTilde homedir trimmed in
  notAbsolute trimmed = true
  \/ fs_existsSync expanded = Normal false
  \/ (exists stat, fs_statSync expanded = Normal stat
                   /\ isDirectory stat = false)
  \/ (exists exn, fs_existsSync expanded = Throw exn)
  \/ (exists exn, fs_statSync expanded = Throw exn).

(** A file system with one directory, [/home/u/proj], and one file,
    [/etc/hosts]; [statSync] throws on what does not exist. *)
Definition sampleExists (path : jsstring) : Completion bool :=
  Normal (eqb path (js "/home/u/proj") || eqb path (js "/etc/hosts")).

Definition sampleStat (path : jsstring) : Completion Stats :=
  if eqb path (js "/home/u/proj") then Normal (mkStats true)
  else if eqb path (js "/etc/hosts") then Normal (mkStats false)
  else Throw (mkError (js "ENOENT: no such file or directory")).

Definition sampleUpdate (directory : jsstring) (s : OpenCodeSettings)
  : Completion unit * OpenCodeSettings :=
  (Normal tt,
   mkSettings (port s) (hostname s) (opencodePath s) directory (autoStart s)).

(** Every pending timer of the tab is the one [validateTimeout] holds. *)
Definition onePending (tab : Tab) : Prop :=
  Forall (fun tm => validateTimeout tab = Some (handle tm)) (timers tab).

(** No timer older than handle [h0] is pending, or will be handed out. *)
Definition noneOlder (h0 : positive) (tab : Tab) : Prop :=
  Forall (fun tm => (h0 <= handle tm)%positive) (timers tab)
  /\ (h0 <= nextHandle tab)%positive.

(** The tab waits on one timer, set just now for [value]. *)
Definition waitingFor (value : jsstring) (tab : Tab) : Prop :=
  exists h,
    timers tab = [mkTimer h (now tab + 500) value]
    /\ validateTimeout tab = Some h.

(** A handler that returns normally and either leaves the world as it
    was or saves, once, the settings as it leaves them. *)
Definition savesOwnChange (handler : Eff unit) (w : World) : Prop :=
  fst (handler w) = Normal tt
  /\ (snd (handler w) = w
      \/ trace (snd (handler w))
         = trace w ++ [CallSaveSettings (settings (snd (handler w)))]).

(** The calls by which a validation ends: a call of
    [updateProjectDirectory] or a notice. *)
Definition isOutcome (c : Call) : bool := isUpdate c || isNotice c.

(** * Properties *)

(** ** Strings *)

Lemma eqb_eq (s t : jsstring) : eqb s t = true <-> s = t.
Proof.
  revert t; induction s as [|c s IH]; intros [|d t]; simpl;
    try (split; [discriminate | congruence]); try tauto.
  rewrite andb_true_iff, N.eqb_eq, IH.
  split; [intros [-> ->]; reflexivity | intros H; inversion H; auto].
Qed.

Lemma eqb_refl (s : jsstring) : eqb s s = true.
Proof. apply eqb_eq; reflexivity. Qed.

Lemma eqb_neq (s t : jsstring) : eqb s t = false <-> s <> t.
Proof.
  destruct (eqb s t) eqn:E.
  - apply eqb_eq in E. split; [discriminate | contradiction].
  - split; [intros _ H; apply eqb_eq in H; congruence | reflexivity].
Qed.

Lemma startsWith_app (p r : jsstring) : startsWith (p ++ r) p = true.
Proof.
  induction p as [|d p IH]; simpl; [reflexivity|].
  now rewrite N.eqb_refl, IH.
Qed.

Lemma startsWith_spec (s p : jsstring) :
  startsWith s p = true <-> exists r, s = p ++ r.
Proof.
  split.
  - revert s; induction p as [|d p IH]; intros s H; simpl in *.
    + now exists s.
    + destruct s as [|c s]; [discriminate|].
      apply andb_true_iff in H as [Hc Hs]. apply N.eqb_eq in Hc; subst.
      destruct (IH _ Hs) as [r ->]. now exists r.
  - intros [r ->]. apply startsWith_app.
Qed.

Lemma skipn_length_app (p r : jsstring) : skipn (length p) (p ++ r) = r.
Proof. induction p; simpl; auto. Qed.

(** A replacement text without a dollar sign is taken literally. *)
Lemma GetSubstitution_literal (matched before after template : jsstring) :
  ~ In DOLLAR template ->
  GetSubstitution matched before after template = template.
Proof.
  induction template as [|c rest IH]; simpl; intros H; [reflexivity|].
  destruct (N.eqb_spec c DOLLAR) as [->|_]; [tauto|].
  rewrite IH; tauto.
Qed.

Lemma replace_leading (p r replacement : jsstring) :
  replace (p ++ r) p replacement = GetSubstitution p [] r replacement ++ r.
Proof.
  unfold replace.
  destruct p as [|d p].
  - destruct r; reflexivity.
  - simpl. rewrite N.eqb_refl, startsWith_app, skipn_length_app. reflexivity.
Qed.

(** [expandTilde] when the home directory holds no dollar sign. *)
Lemma expandTilde_plain_home (homedir : jsstring) :
  ~ In DOLLAR homedir ->
  expandTilde homedir (js "~") = homedir
  /\ (forall rest,
        expandTilde homedir (js "~/" ++ rest) = homedir ++ js "/" ++ rest)
  /\ (forall path,
        path <> js "~" -> startsWith path (js "~/") = false ->
        expandTilde homedir path = path).
Proof.
  intros Hd. split; [reflexivity|]. split.
  - intros rest. unfold expandTilde.
    change (js "~/" ++ rest) with (js "~" ++ (js "/" ++ rest)).
    replace (eqb (js "~" ++ js "/" ++ rest) (js "~")) with false
      by reflexivity.
    replace (startsWith (js "~" ++ js "/" ++ rest) (js "~/")) with true
      by reflexivity.
    rewrite replace_leading, GetSubstitution_literal by assumption.
    reflexivity.
  - intros path Hne Hsw. unfold expandTilde.
    apply eqb_neq in Hne. now rewrite Hne, Hsw.
Qed.

(** Whatever the home directory, a path that is neither [~] nor under
    [~/] is left as it is. *)
Lemma expandTilde_other (homedir path : jsstring) :
  eqb path (js "~") = false -> startsWith path (js "~/") = false ->
  expandTilde homedir path = path.
Proof. intros H1 H2. unfold expandTilde. now rewrite H1, H2. Qed.

(** X1: under a home directory that holds no dollar sign, [expandTilde]
    maps [~] to the home directory, a path [~/rest] to the home directory
    followed by [/rest], and every other path to itself. *)
Theorem expandTilde_without_dollar (homedir : jsstring) :
  ~ In DOLLAR homedir ->
  expandTilde homedir (js "~") = homedir
  /\ (forall rest,
        expandTilde homedir (js "~/" ++ rest) = homedir ++ js "/" ++ rest)
  /\ (forall path,
        path <> js "~" -> startsWith path (js "~/") = false ->
        expandTilde homedir path = path).
Proof. exact (expandTilde_plain_home homedir). Qed.

Lemma expandTilde_without_dollar_witness :
  ~ In DOLLAR (js "/home/u")
  /\ expandTilde (js "/home/u") (js "~/notes/work") = js "/home/u/notes/work".
Proof.
  assert (~ In DOLLAR (js "/home/u")) as H.
  { cbv. intuition discriminate. }
  split; [exact H|].
  exact (proj1 (proj2 (expandTilde_without_dollar (js "/home/u") H))
           (js "notes/work")).
Defined.

(** C3: [expandTilde] is to put the home directory in the place of a
    leading tilde.  With the home directory [/srv/$$data] the path
    [~/proj] comes out as [/srv/$data/proj]: [String.prototype.replace]
    reads [$$] in its replacement text as one dollar sign, so the result
    is not the home directory followed by [/proj]. *)
Theorem expandTilde_dollar_home :
  expandTilde (js "/srv/$$data") (js "~/proj") = js "/srv/$data/proj"
  /\ expandTilde (js "/srv/$$data") (js "~/proj")
     <> js "/srv/$$data" ++ js "/proj".
Proof. split; [reflexivity | discriminate]. Qed.

(** ** Port, hostname and executable path *)

Lemma validPort_dec (p : Number) :
  negb (isNaN p) && gt p (Num 0) && lt p (Num 65536) = true <-> validPort p.
Proof.
  destruct p as [|z]; simpl.
  - split; [discriminate | intros [z [H _]]; discriminate].
  - rewrite andb_true_iff, !Z.ltb_lt. split.
    + intros [H1 H2]. exists z. split; [reflexivity | lia].
    + intros [z' [H Hz]]. inversion H; subst. lia.
Qed.

(** C1: a change of the Port field keeps the stored port an integer
    strictly between 0 and 65536.  The handler returns normally; when
    [parseInt(value, 10)] is such an integer it becomes the stored port and
    the settings are saved with it; for every other input the world is
    left as it was, with nothing saved. *)
Theorem onChange_port_valid (value : jsstring) (w : World) :
  validPort (port (settings w)) ->
  fst (onChange_port value w) = Normal tt
  /\ validPort (port (settings (snd (onChange_port value w))))
  /\ ((validPort (parseInt value 10)
       /\ settings (snd (onChange_port value w))
          = set_port (parseInt value 10) (settings w)
       /\ trace (snd (onChange_port value w))
          = trace w
            ++ [CallSaveSettings (set_port (parseInt value 10) (settings w))])
      \/ (~ validPort (parseInt value 10)
          /\ snd (onChange_port value w) = w)).
Proof.
  intros Hw. unfold onChange_port.
  destruct (negb (isNaN (parseInt value 10)) && gt (parseInt value 10) (Num 0)
            && lt (parseInt value 10) (Num 65536)) eqn:E.
  - apply validPort_dec in E.
    split; [reflexivity|]. split; [exact E|]. left. auto.
  - assert (~ validPort (parseInt value 10)) as Hn.
    { intros H. apply validPort_dec in H. congruence. }
    split; [reflexivity|]. split; [exact Hw|]. right. auto.
Qed.

Lemma onChange_port_valid_witness :
  validPort (port (settings sampleWorld))
  /\ validPort (port (settings (snd (onChange_port (js "8080") sampleWorld)))).
Proof.
  assert (validPort (port (settings sampleWorld))) as H.
  { exists 14096%Z. split; [reflexivity | lia]. }
  split; [exact H|].
  exact (proj1 (proj2 (onChange_port_valid (js "8080") sampleWorld H))).
Defined.

(** C2: an empty Hostname becomes [127.0.0.1] and an empty OpenCode path
    becomes [opencode]; a non-empty input is stored as it is; so after the
    event the field's setting is not the empty string.  Each handler
    touches its own setting only, and saves. *)
Theorem onChange_hostname_path_defaults (w : World) :
  hostname (settings (snd (onChange_hostname [] w))) = js "127.0.0.1"
  /\ opencodePath (settings (snd (onChange_opencodePath [] w)))
     = js "opencode"
  /\ (forall c value,
        hostname (settings (snd (onChange_hostname (c :: value) w)))
        = c :: value
        /\ opencodePath (settings (snd (onChange_opencodePath (c :: value) w)))
           = c :: value)
  /\ (forall value,
        hostname (settings (snd (onChange_hostname value w))) <> []
        /\ opencodePath (settings (snd (onChange_hostname value w)))
           = opencodePath (settings w)
        /\ opencodePath (settings (snd (onChange_opencodePath value w))) <> []
        /\ hostname (settings (snd (onChange_opencodePath value w)))
           = hostname (settings w)).
Proof.
  split; [reflexivity|]. split; [reflexivity|]. split.
  - intros c value. split; reflexivity.
  - intros [|c value]; simpl; repeat split; discriminate.
Qed.

(** ** validateAndSetProjectDirectory *)

Lemma trimStart_nil (s : jsstring) :
  trimStart s = [] <-> forallb isWhiteSpace s = true.
Proof.
  induction s as [|c s IH]; simpl; [tauto|].
  destruct (isWhiteSpace c); simpl; [exact IH|].
  split; discriminate.
Qed.

Lemma forallb_rev (f : N -> bool) (s : jsstring) :
  forallb f (rev s) = forallb f s.
Proof.
  induction s as [|c s IH]; simpl; [reflexivity|].
  rewrite forallb_app, IH. simpl. rewrite andb_true_r. apply andb_comm.
Qed.

Lemma trimStart_head (s : jsstring) :
  trimStart s = []
  \/ exists c r, trimStart s = c :: r /\ isWhiteSpace c = false.
Proof.
  induction s as [|c s IH]; simpl; [now left|].
  destruct (isWhiteSpace c) eqn:E; [exact IH|].
  right. now exists c, s.
Qed.

(** [trim] leaves nothing exactly when every code unit is white space. *)
Lemma trim_nil (s : jsstring) :
  trim s = [] <-> forallb isWhiteSpace s = true.
Proof.
  unfold trim, trimEnd. split.
  - intros H.
    assert (trimStart (rev (trimStart s)) = []) as H'.
    { rewrite <- (rev_involutive (trimStart _)), H. reflexivity. }
    apply trimStart_nil in H'. rewrite forallb_rev in H'.
    destruct (trimStart_head s) as [E | (c & r & E & Hc)].
    + now apply trimStart_nil.
    + rewrite E in H'. simpl in H'. now rewrite Hc in H'.
  - intros H. apply trimStart_nil in H. now rewrite H.
Qed.

Section ProjectDirectoryFacts.

Variable homedir : jsstring.
Variable fs_existsSync : jsstring -> Completion bool.
Variable fs_statSync : jsstring -> Completion Stats.
Variable plugin_updateProjectDirectory :
  jsstring -> OpenCodeSettings -> Completion unit * OpenCodeSettings.

Local Abbreviation validate :=
  (validateAndSetProjectDirectory homedir fs_existsSync fs_statSync
     plugin_updateProjectDirectory).

Local Abbreviation update :=
  (updateProjectDirectory plugin_updateProjectDirectory).

(** The three ways out of [validateAndSetProjectDirectory] for an input
    that is not empty once trimmed. *)
Lemma validate_nonempty (value : jsstring) (w : World) :
  trim value <> [] ->
  let trimmed := trim value in
  let expanded := expandTilde homedir trimmed in
  let seen calls := mkWorld (settings w) (trace w ++ calls) in
  validate value w =
    if notAbsolute trimmed then
      (Normal tt,
       seen [NewNotice
               (js "Project directory must be an absolute path (or start with ~)")])
    else
      match fs_existsSync expanded with
      | Throw exn =>
          (Normal tt,
           seen [CallExistsSync expanded;
                 NewNotice (js "Failed to validate path: " ++ message exn)])
      | Normal false =>
          (Normal tt,
           seen [CallExistsSync expanded;
                 NewNotice (js "Project directory does not exist")])
      | Normal true =>
          match fs_statSync expanded with
          | Throw exn =>
              (Normal tt,
               seen [CallExistsSync expanded; CallStatSync expanded;
                     NewNotice (js "Failed to validate path: " ++ message exn)])
          | Normal stat =>
              if isDirectory stat then
                update expanded
                  (seen [CallExistsSync expanded; CallStatSync expanded])
              else
                (Normal tt,
                 seen [CallExistsSync expanded; CallStatSync expanded;
                       NewNotice
                         (js "Project directory path is not a directory")])
          end
      end.
Proof.
  intros Hne. cbv zeta.
  unfold validateAndSetProjectDirectory.
  destruct (trim value) as [|c t] eqn:Et; [congruence|].
  cbn [truthy negb].
  destruct (notAbsolute (c :: t)); [reflexivity|].
  unfold bind, tryCatch, existsSync, statSync, Notice, record, ret.
  cbn [settings trace].
  destruct (fs_existsSync _) as [[|]|exn]; cbn [negb settings trace];
    rewrite <- ?app_assoc; cbn [app]; try reflexivity.
  destruct (fs_statSync _) as [stat|exn]; cbn [negb settings trace];
    rewrite <- ?app_assoc; cbn [app]; try reflexivity.
  destruct (isDirectory stat); cbn [negb settings trace];
    rewrite <- ?app_assoc; cbn [app]; reflexivity.
Qed.

(** C9: an input that is empty or all white space is accepted as it
    stands: the only thing the handler does is to call
    [updateProjectDirectory] with the empty string; no notice is raised and
    the file system is not consulted. *)
Theorem validate_blank (value : jsstring) (w : World) :
  forallb isWhiteSpace value = true ->
  trim value = []
  /\ validate value w = update [] w
  /\ trace (snd (validate value w))
     = trace w ++ [CallUpdateProjectDirectory []].
Proof.
  intros H. apply trim_nil in H. split; [exact H|].
  unfold validateAndSetProjectDirectory. rewrite H. cbn [truthy negb].
  split; [reflexivity|].
  unfold updateProjectDirectory.
  destruct (plugin_updateProjectDirectory [] (settings w)). reflexivity.
Qed.

(** C5: a non-empty trimmed input that starts neither with [/] nor with
    [~] nor with a drive letter, a colon and a backslash is refused with
    the notice about absolute paths, and nothing else happens:
    [updateProjectDirectory] is not called. *)
Theorem validate_not_absolute (value : jsstring) (w : World) :
  trim value <> [] ->
  startsWith (trim value) (js "/") = false ->
  startsWith (trim value) (js "~") = false ->
  matchDriveLetter (trim value) = false ->
  validate value w
  = (Normal tt,
     mkWorld (settings w)
       (trace w
        ++ [NewNotice
              (js "Project directory must be an absolute path (or start with ~)")])).
Proof.
  intros Hne H1 H2 H3. rewrite validate_nonempty by assumption. cbv zeta.
  unfold notAbsolute. now rewrite H1, H2, H3.
Qed.

(** C4: when the trimmed input passes every check (absolute form, the
    path exists, it is a directory), [updateProjectDirectory] is called,
    once, with [expandTilde] of the trimmed input, which is also the path
    the checks were made on; under a home directory without a dollar
    sign, for an input [~/rest] that is the home directory followed by
    [/rest]. *)
Theorem validate_stores_expanded (value : jsstring) (w : World) (stat : Stats) :
  trim value <> [] ->
  notAbsolute (trim value) = false ->
  fs_existsSync (expandTilde homedir (trim value)) = Normal true ->
  fs_statSync (expandTilde homedir (trim value)) = Normal stat ->
  isDirectory stat = true ->
  let expanded := expandTilde homedir (trim value) in
  filter isUpdate (trace (snd (validate value w)))
  = filter isUpdate (trace w) ++ [CallUpdateProjectDirectory expanded]
  /\ trace (snd (validate value w))
     = trace w ++ [CallExistsSync expanded; CallStatSync expanded;
                   CallUpdateProjectDirectory expanded]
  /\ settings (snd (validate value w))
     = snd (plugin_updateProjectDirectory expanded (settings w))
  /\ (~ In DOLLAR homedir ->
      forall rest, trim value = js "~/" ++ rest ->
                   expanded = homedir ++ js "/" ++ rest).
Proof.
  intros Hne Ha He Hs Hd expanded.
  rewrite validate_nonempty by assumption. cbv zeta.
  rewrite Ha, He, Hs, Hd. fold expanded.
  unfold updateProjectDirectory. cbn [settings trace].
  destruct (plugin_updateProjectDirectory expanded (settings w)) as [c s'].
  cbn [snd settings trace]. rewrite <- app_assoc. cbn [app].
  split; [|split; [reflexivity|split; [reflexivity|]]].
  - rewrite filter_app. reflexivity.
  - intros Hh rest Hr. unfold expanded. rewrite Hr.
    apply (expandTilde_plain_home homedir Hh).
Qed.

(** C8: when validation of a non-empty input fails, for whichever reason
    (form, missing path, not a directory, an exception of [existsSync] or
    of [statSync]), the handler returns normally, the settings are what
    they were, [updateProjectDirectory] has not been called, and the user
    has been told by a notice. *)
Theorem validate_failure_keeps (value : jsstring) (w : World) :
  trim value <> [] ->
  validationFails homedir fs_existsSync fs_statSync (trim value) ->
  fst (validate value w) = Normal tt
  /\ settings (snd (validate value w)) = settings w
  /\ exists calls,
       trace (snd (validate value w)) = trace w ++ calls
       /\ filter isUpdate calls = []
       /\ existsb isNotice calls = true.
Proof.
  intros Hne Hf. rewrite validate_nonempty by assumption. cbv zeta.
  unfold validationFails in Hf. cbv zeta in Hf.
  destruct (notAbsolute (trim value)).
  { repeat split; eexists; repeat split; reflexivity. }
  destruct Hf as [Hf|Hf]; [discriminate|].
  destruct (fs_existsSync _) as [[|]|exn].
  2,3: repeat split; eexists; repeat split; reflexivity.
  destruct Hf as [Hf|Hf]; [discriminate|].
  destruct (fs_statSync _) as [stat|exn].
  2: repeat split; eexists; repeat split; reflexivity.
  destruct (isDirectory stat) eqn:Hd.
  2: repeat split; eexists; repeat split; reflexivity.
  destruct Hf as [(st & E & Hst)|[(exn & E)|(exn & E)]];
    try discriminate.
  inversion E; subst. congruence.
Qed.

(** Validation either passes or fails in one of the listed ways. *)
Lemma validation_passes_or_fails (trimmed : jsstring) :
  (notAbsolute trimmed = false
   /\ fs_existsSync (expandTilde homedir trimmed) = Normal true
   /\ exists stat, fs_statSync (expandTilde homedir trimmed) = Normal stat
                   /\ isDirectory stat = true)
  \/ validationFails homedir fs_existsSync fs_statSync trimmed.
Proof.
  unfold validationFails. cbv zeta.
  destruct (notAbsolute trimmed); [right; now left|].
  destruct (fs_existsSync _) as [[|]|exn];
    [|right; right; now left|right; right; right; right; left; now exists exn].
  destruct (fs_statSync _) as [[[|]]|exn].
  - left. repeat split. now exists (mkStats true).
  - right. right. right. left. now exists (mkStats false).
  - right. right. right. right. right. now exists exn.
Qed.

(** C10: an input whose trimmed form starts with [~] but is neither [~]
    nor under [~/] passes the absolute-form test, comes out of
    [expandTilde] as it went in, and is the very path that [existsSync] is
    called on first and that every file system call of the validation is
    made on. *)
Theorem validate_tilde_user (value : jsstring) (w : World) :
  startsWith (trim value) (js "~") = true ->
  trim value <> js "~" ->
  startsWith (trim value) (js "~/") = false ->
  notAbsolute (trim value) = false
  /\ expandTilde homedir (trim value) = trim value
  /\ exists calls,
       trace (snd (validate value w))
       = trace w ++ CallExistsSync (trim value) :: calls
       /\ forall c p, In c calls -> fsPath c = Some p -> p = trim value.
Proof.
  intros Ht Hne Hs.
  assert (trim value <> []) as Hnil.
  { intros E. rewrite E in Ht. discriminate. }
  assert (notAbsolute (trim value) = false) as Ha.
  { unfold notAbsolute. rewrite Ht. cbn [negb].
    now rewrite andb_false_r. }
  assert (expandTilde homedir (trim value) = trim value) as He.
  { apply expandTilde_other; [now apply eqb_neq | exact Hs]. }
  split; [exact Ha|]. split; [exact He|].
  rewrite validate_nonempty by assumption. cbv zeta. rewrite Ha, He.
  destruct (fs_existsSync _) as [[|]|exn].
  2,3: eexists; split; [reflexivity|];
       intros c p [<-|[]]; discriminate.
  destruct (fs_statSync _) as [stat|exn].
  2: eexists; split; [reflexivity|];
     intros c p [<-|[<-|[]]] E; inversion E; reflexivity.
  destruct (isDirectory stat).
  2: eexists; split; [reflexivity|];
     intros c p [<-|[<-|[]]] E; inversion E; reflexivity.
  unfold updateProjectDirectory. cbn [settings trace].
  destruct (plugin_updateProjectDirectory _ _) as [c0 s'].
  cbn [snd trace]. rewrite <- app_assoc. cbn [app].
  eexists; split; [reflexivity|].
  intros c p [<-|[<-|[]]] E; inversion E; reflexivity.
Qed.

End ProjectDirectoryFacts.

(** The claims above, tried on the sample file system with the home
    directory [/home/u]. *)

Lemma validate_blank_witness :
  forallb isWhiteSpace [32; 160; 9]%N = true
  /\ trace (snd (validateAndSetProjectDirectory (js "/home/u") sampleExists
                   sampleStat sampleUpdate [32; 160; 9]%N sampleWorld))
     = [CallUpdateProjectDirectory []].
Proof.
  split; [reflexivity|].
  exact (proj2 (proj2 (validate_blank (js "/home/u") sampleExists sampleStat
                         sampleUpdate [32; 160; 9]%N sampleWorld eq_refl))).
Defined.

Lemma validate_not_absolute_witness :
  trim (js " notes/dir ") = js "notes/dir"
  /\ validateAndSetProjectDirectory (js "/home/u") sampleExists sampleStat
       sampleUpdate (js " notes/dir ") sampleWorld
     = (Normal tt,
        mkWorld sampleSettings
          [NewNotice
             (js "Project directory must be an absolute path (or start with ~)")]).
Proof.
  split; [reflexivity|].
  apply (validate_not_absolute (js "/home/u") sampleExists sampleStat
           sampleUpdate (js " notes/dir ") sampleWorld);
    [discriminate | reflexivity | reflexivity | reflexivity].
Defined.

Lemma validate_stores_expanded_witness :
  trim (js " ~/proj ") = js "~/proj"
  /\ trace (snd (validateAndSetProjectDirectory (js "/home/u") sampleExists
                   sampleStat sampleUpdate (js " ~/proj ") sampleWorld))
     = [CallExistsSync (js "/home/u/proj"); CallStatSync (js "/home/u/proj");
        CallUpdateProjectDirectory (js "/home/u/proj")].
Proof.
  split; [reflexivity|].
  refine (proj1 (proj2 (validate_stores_expanded (js "/home/u") sampleExists
                          sampleStat sampleUpdate (js " ~/proj ") sampleWorld
                          (mkStats true) _ eq_refl eq_refl eq_refl eq_refl))).
  discriminate.
Defined.

Lemma validate_failure_keeps_witness :
  validationFails (js "/home/u") sampleExists sampleStat (js "/nowhere")
  /\ fst (validateAndSetProjectDirectory (js "/home/u") sampleExists
            sampleStat sampleUpdate (js "/nowhere") sampleWorld)
     = Normal tt
  /\ settings (snd (validateAndSetProjectDirectory (js "/home/u")
                      sampleExists sampleStat sampleUpdate (js "/nowhere")
                      sampleWorld))
     = sampleSettings.
Proof.
  assert (validationFails (js "/home/u") sampleExists sampleStat
            (trim (js "/nowhere"))) as H.
  { right. left. reflexivity. }
  split; [exact H|].
  assert (trim (js "/nowhere") <> []) as Hne by discriminate.
  pose proof (validate_failure_keeps (js "/home/u") sampleExists sampleStat
                sampleUpdate (js "/nowhere") sampleWorld Hne H) as (H1 & H2 & _).
  split; [exact H1 | exact H2].
Defined.

Lemma validate_tilde_user_witness :
  trim (js "~user/project") = js "~user/project"
  /\ expandTilde (js "/home/u") (js "~user/project") = js "~user/project".
Proof.
  split; [reflexivity|].
  refine (proj1 (proj2 (validate_tilde_user (js "/home/u") sampleExists
                          sampleStat sampleUpdate (js "~user/project")
                          sampleWorld eq_refl _ eq_refl))).
  discriminate.
Defined.

(** ** The debounce of the project-directory field *)

Lemma Forall_enqueue (Q : Timer -> Prop) (tm : Timer) (queue : list Timer) :
  Q tm -> Forall Q queue -> Forall Q (enqueue tm queue).
Proof.
  intros Htm. induction 1 as [|q queue Hq Hqueue IH]; simpl.
  - now constructor.
  - destruct (due q <=? due tm)%N; repeat constructor; assumption.
Qed.

Lemma Forall_keep (Q : Timer -> Prop) (f : Timer -> bool)
    (queue : list Timer) :
  Forall Q queue -> Forall Q (filter f queue).
Proof.
  induction 1 as [|q queue Hq Hqueue IH]; simpl; [constructor|].
  destruct (f q); [constructor|]; assumption.
Qed.

Lemma clear_all (h : positive) (queue : list Timer) :
  Forall (fun tm => Some h = Some (handle tm)) queue ->
  filter (fun tm => negb (handle tm =? h)%positive) queue = [].
Proof.
  induction 1 as [|q queue Hq Hqueue IH]; simpl; [reflexivity|].
  inversion Hq as [E]. rewrite <- E, Pos.eqb_refl. exact IH.
Qed.

(** What a change event makes of the tab: whatever was pending is
    cancelled, and one timer is set, 500 ms from now, for the new value. *)
Lemma onChange_projectDirectory_spec (value : jsstring) (tab : Tab) :
  onePending tab ->
  onChange_projectDirectory value tab
  = mkTab (world tab) (Some (nextHandle tab))
      [mkTimer (nextHandle tab) (now tab + 500) value]
      (now tab) (Pos.succ (nextHandle tab)) (fired tab).
Proof.
  destruct tab as [w vt tms t nh fd]. unfold onePending, onChange_projectDirectory.
  cbn [validateTimeout timers]. intros H.
  destruct vt as [h|].
  - unfold clearTimeout, setTimeout, set_validateTimeout. cbn.
    now rewrite (clear_all _ _ H).
  - destruct tms as [|tm tms]; [reflexivity|].
    inversion H as [|? ? E]. discriminate.
Qed.

Section EventLoopFacts.

Variable homedir : jsstring.
Variable fs_existsSync : jsstring -> Completion bool.
Variable fs_statSync : jsstring -> Completion Stats.
Variable plugin_updateProjectDirectory :
  jsstring -> OpenCodeSettings -> Completion unit * OpenCodeSettings.

Local Abbreviation validate :=
  (validateAndSetProjectDirectory homedir fs_existsSync fs_statSync
     plugin_updateProjectDirectory).

Local Abbreviation elapse :=
  (EventLoop.elapse homedir fs_existsSync fs_statSync plugin_updateProjectDirectory).

Local Abbreviation step :=
  (EventLoop.step homedir fs_existsSync fs_statSync plugin_updateProjectDirectory).

Local Abbreviation run :=
  (EventLoop.run homedir fs_existsSync fs_statSync plugin_updateProjectDirectory).

Lemma onePending_step (tab : Tab) (ev : Event) :
  onePending tab -> onePending (step tab ev).
Proof.
  intros H. destruct ev as [value|ms]; cbn [EventLoop.step].
  - rewrite onChange_projectDirectory_spec by assumption.
    unfold onePending. cbn. now repeat constructor.
  - unfold onePending, EventLoop.elapse in *. cbn [validateTimeout timers].
    now apply Forall_keep.
Qed.

(** The states the tab can reach satisfy [onePending]. *)
Lemma onePending_run (events : list Event) (tab : Tab) :
  onePending tab -> onePending (run events tab).
Proof.
  revert tab. induction events as [|ev events IH]; intros tab H;
    [exact H|].
  apply IH, onePending_step, H.
Qed.

Lemma onePending_newTab (w : World) : onePending (newTab w).
Proof. constructor. Qed.

Lemma noneOlder_step (h0 : positive) (tab : Tab) (ev : Event) :
  noneOlder h0 tab ->
  noneOlder h0 (step tab ev)
  /\ exists new, fired (step tab ev) = fired tab ++ new
                 /\ Forall (fun h => (h0 <= h)%positive) new.
Proof.
  intros [Hq Hn]. destruct ev as [value|ms]; cbn [EventLoop.step].
  - split.
    + unfold noneOlder, onChange_projectDirectory.
      destruct (validateTimeout tab); cbn; (split; [|lia]);
        apply Forall_enqueue; cbn; try assumption.
      now apply Forall_keep.
    + exists []. rewrite app_nil_r. split; [|constructor].
      unfold onChange_projectDirectory.
      destruct (validateTimeout tab); reflexivity.
  - split.
    + split; [|exact Hn]. cbn. now apply Forall_keep.
    + eexists. split; [reflexivity|].
      apply Forall_map. now apply Forall_keep.
Qed.

Lemma noneOlder_run (h0 : positive) (events : list Event) (tab : Tab) :
  noneOlder h0 tab ->
  exists new, fired (run events tab) = fired tab ++ new
              /\ Forall (fun h => (h0 <= h)%positive) new.
Proof.
  revert tab. induction events as [|ev events IH]; intros tab H.
  - exists []. now rewrite app_nil_r.
  - destruct (noneOlder_step _ _ ev H) as [H' (new1 & E1 & F1)].
    destruct (IH _ H') as (new2 & E2 & F2).
    exists (new1 ++ new2).
    change (run (ev :: events) tab) with (run events (step tab ev)).
    rewrite E2, E1, app_assoc. split; [reflexivity|].
    apply Forall_app. now split.
Qed.

(** An edit that comes less than 500 ms after the one the tab waits for
    takes its place, and nothing has run in between. *)
Lemma waitingFor_next (value next : jsstring) (gap : N) (tab : Tab) :
  waitingFor value tab -> (gap < 500)%N ->
  let tab' := onChange_projectDirectory next (elapse gap tab) in
  waitingFor next tab' /\ world tab' = world tab /\ fired tab' = fired tab.
Proof.
  intros (h & Ht & Hv) Hgap. cbv zeta.
  assert (EventLoop.isDue (now tab + gap)
            (mkTimer h (now tab + 500) value) = false) as Hdue.
  { apply N.leb_gt. cbn. lia. }
  assert (elapse gap tab
          = mkTab (world tab) (Some h) [mkTimer h (now tab + 500) value]
              (now tab + gap) (nextHandle tab) (fired tab)) as E.
  { unfold EventLoop.elapse. rewrite Ht, Hv. cbn [filter].
    rewrite Hdue. cbn. now rewrite app_nil_r. }
  rewrite E, onChange_projectDirectory_spec
    by (unfold onePending; cbn; now repeat constructor).
  cbn. split; [|split; reflexivity].
  eexists. split; reflexivity.
Qed.

Lemma last_cons (x d : jsstring) (l : list jsstring) :
  last (x :: l) d = last l x.
Proof.
  revert x d. induction l as [|y l IH]; intros x d; [reflexivity|].
  change (last (x :: y :: l) d) with (last (y :: l) d).
  now rewrite (IH y d), (IH y x).
Qed.

Lemma waitingFor_burst (more : list (N * jsstring)) (value : jsstring)
    (tab : Tab) :
  waitingFor value tab ->
  Forall (fun e => (fst e < 500)%N) more ->
  let tab' :=
    run (flat_map (fun e => [Wait (fst e); Edit (snd e)]) more) tab in
  waitingFor (lastValue value more) tab'
  /\ world tab' = world tab /\ fired tab' = fired tab.
Proof.
  revert value tab. induction more as [|[gap next] more IH];
    intros value tab Hw Hgaps; cbv zeta.
  - now repeat split.
  - inversion Hgaps as [|? ? Hgap Hgaps']; subst. cbn [fst] in Hgap.
    destruct (waitingFor_next _ next _ _ Hw Hgap) as (Hw' & Ew & Ef).
    destruct (IH _ _ Hw' Hgaps') as (Hw'' & Ew' & Ef').
    unfold lastValue. cbn [map snd]. rewrite last_cons.
    unfold EventLoop.run in *.
    cbn [flat_map app fold_left EventLoop.step fst snd].
    split; [exact Hw''|]. split; congruence.
Qed.

(** C6: a change event cancels what is pending and sets one timer, 500 ms
    ahead, for its value.  So when edits follow one another less than
    500 ms apart and 500 ms or more of quiet come after the last, exactly
    one validation has run, that of the last value, and nothing is left
    pending; and once an edit has arrived, no timer of an earlier edit
    runs, whatever comes next. *)
Theorem debounce_last_edit_wins (tab : Tab) (first : jsstring)
    (more : list (N * jsstring)) (quiet : N) :
  onePending tab ->
  Forall (fun e => (fst e < 500)%N) more ->
  (500 <= quiet)%N ->
  (forall value,
     timers (onChange_projectDirectory value tab)
     = [mkTimer (nextHandle tab) (now tab + 500) value])
  /\ world (run (burst first more ++ [Wait quiet]) tab)
     = snd (validate (lastValue first more) (world tab))
  /\ timers (run (burst first more ++ [Wait quiet]) tab) = []
  /\ (exists h, fired (run (burst first more ++ [Wait quiet]) tab)
                = fired tab ++ [h])
  /\ (forall value events,
        exists new,
          fired (run events (onChange_projectDirectory value tab))
          = fired tab ++ new
          /\ Forall (fun h => (nextHandle tab <= h)%positive) new).
Proof.
  intros Hone Hgaps Hquiet.
  split.
  { intros value. now rewrite onChange_projectDirectory_spec. }
  assert (waitingFor first (onChange_projectDirectory first tab)) as Hw.
  { rewrite onChange_projectDirectory_spec by assumption.
    eexists. split; reflexivity. }
  destruct (waitingFor_burst _ _ _ Hw Hgaps) as ((h & Ht & Hv) & Ew & Ef).
  cbv zeta in *.
  unfold burst, EventLoop.run in *. rewrite fold_left_app.
  cbn [fold_left EventLoop.step] in *.
  set (tab' := fold_left step _ (onChange_projectDirectory first tab)) in *.
  assert (EventLoop.isDue (now tab' + quiet)
            (mkTimer h (now tab' + 500) (lastValue first more)) = true)
    as Hdue.
  { apply N.leb_le. cbn. lia. }
  assert (world (onChange_projectDirectory first tab) = world tab
          /\ fired (onChange_projectDirectory first tab) = fired tab)
    as [Ew0 Ef0].
  { rewrite onChange_projectDirectory_spec by assumption. now split. }
  unfold EventLoop.elapse. cbn [world timers fired].
  rewrite Ht. cbn [filter]. rewrite Hdue. cbn [negb fold_left map].
  split; [|split; [|split]].
  - unfold EventLoop.fire. cbn [closure_value]. congruence.
  - reflexivity.
  - exists h. cbn [handle]. congruence.
  - intros value events.
    assert (noneOlder (nextHandle tab)
              (onChange_projectDirectory value tab)) as Hn.
    { rewrite onChange_projectDirectory_spec by assumption.
      split; cbn; [constructor; [cbn; lia | constructor] | lia]. }
    destruct (noneOlder_run _ events _ Hn) as (new & E & F).
    exists new. split; [|exact F].
    fold (run events (onChange_projectDirectory value tab)).
    rewrite E. now rewrite onChange_projectDirectory_spec.
Qed.

End EventLoopFacts.

(** Three edits 120 ms and 300 ms apart, then half a second of quiet, on
    a fresh tab: the last value alone is validated and stored. *)
Lemma debounce_last_edit_wins_witness :
  onePending (newTab sampleWorld)
  /\ Forall (fun e => (fst e < 500)%N)
       [(120%N, js "/home/u/pr"); (300%N, js "/home/u/proj")]
  /\ (500 <= 500)%N
  /\ world (EventLoop.run (js "/home/u") sampleExists sampleStat sampleUpdate
              (burst (js "/ho")
                 [(120%N, js "/home/u/pr"); (300%N, js "/home/u/proj")]
               ++ [Wait 500])
              (newTab sampleWorld))
     = snd (validateAndSetProjectDirectory (js "/home/u") sampleExists
              sampleStat sampleUpdate (js "/home/u/proj") sampleWorld).
Proof.
  assert (onePending (newTab sampleWorld)) as H1 by constructor.
  assert (Forall (fun e => (fst e < 500)%N)
            [(120%N, js "/home/u/pr"); (300%N, js "/home/u/proj")]) as H2
    by (repeat constructor).
  assert (500 <= 500)%N as H3 by lia.
  split; [exact H1|]. split; [exact H2|]. split; [exact H3|].
  exact (proj1 (proj2 (debounce_last_edit_wins (js "/home/u") sampleExists
                         sampleStat sampleUpdate (newTab sampleWorld)
                         (js "/ho") _ 500%N H1 H2 H3))).
Defined.

(** ** The server status panel *)

(** C7: the panel has a Start Server button exactly when the state is
    [stopped] or [error], Stop Server and Restart Server buttons exactly
    when it is [running], and no button while [starting].  So, given that
    [stopServer()] leaves a running server [stopped], a click on a button
    of the panel rendered for the state the plugin reports calls
    [startServer()] only in the state [stopped] or [error], and
    [stopServer()] only in the state [running]: Start starts a stopped or
    failed server, Stop stops a running one, and Restart stops a running
    one and starts what is then stopped. *)
Theorem renderServerStatus_controls (Plugin : Type)
    (getProcessState : Plugin -> ProcessState)
    (plugin_startServer plugin_stopServer : Plugin -> Plugin)
    (url : jsstring) (plugin : Plugin) :
  (forall p, getProcessState p = running ->
             getProcessState (plugin_stopServer p) = stopped) ->
  let state := getProcessState plugin in
  let panel := controls (renderServerStatus url state) in
  (In (js "Start Server") (map fst panel)
   <-> state = stopped \/ state = error)
  /\ (In (js "Stop Server") (map fst panel) <-> state = running)
  /\ (In (js "Restart Server") (map fst panel) <-> state = running)
  /\ (state = starting <-> panel = [])
  /\ (forall label click,
        In (label, click) panel ->
        (hd_error click = Some startServer ->
         state = stopped \/ state = error)
        /\ (In stopServer click -> state = running)
        /\ (In startServer click \/ In stopServer click))
  /\ (forall label click action current,
        In (label, click) panel ->
        In (action, current)
          (fst (runListener getProcessState plugin_startServer
                  plugin_stopServer click plugin)) ->
        (action = startServer -> current = stopped \/ current = error)
        /\ (action = stopServer -> current = running)).
Proof.
  intros Hstop. cbv zeta.
  assert (getProcessState plugin = running ->
          getProcessState (plugin_stopServer plugin) = stopped) as Hs
    by apply Hstop.
  destruct (getProcessState plugin) eqn:Estate.
  all: split; [|split; [|split; [|split; [|split]]]].
  all: try (cbn; repeat match goal with
                   | |- _ /\ _ => split
                   | |- _ <-> _ => split
                   | |- forall _, _ => intro
                   | H : _ \/ _ |- _ => destruct H
                   | H : False |- _ => destruct H
                   | H : (_, _) = (_, _) |- _ => inversion H; subst; clear H
                   end;
            cbn in *; try discriminate; try tauto; try congruence; auto;
            intuition discriminate).
  all: intros label click action current Hb Hin; cbn in Hb;
    repeat match goal with
      | H : _ \/ _ |- _ => destruct H
      | H : False |- _ => destruct H
      | H : (_, _) = (_, _) |- _ => inversion H; subst; clear H
      end;
    cbn in Hin; rewrite ?Estate, ?(Hs eq_refl) in Hin;
    repeat match goal with
      | H : _ \/ _ |- _ => destruct H
      | H : False |- _ => destruct H
      | H : (_, _) = (_, _) |- _ => inversion H; subst; clear H
      end;
    split; intros; try discriminate; auto.
Qed.

Lemma renderServerStatus_controls_witness :
  (forall p : ProcessState, p = running -> sampleStop p = stopped)
  /\ fst (runListener (fun p => p) sampleStart sampleStop
            [stopServer; startServer; rerender] running)
     = [(stopServer, running); (startServer, stopped); (rerender, running)]
  /\ forall action current,
       In (action, current)
         (fst (runListener (fun p => p) sampleStart sampleStop
                 [stopServer; startServer; rerender] running)) ->
       (action = startServer -> current = stopped \/ current = error)
       /\ (action = stopServer -> current = running).
Proof.
  assert (forall p : ProcessState, p = running -> sampleStop p = stopped)
    as H by (intros p ->; reflexivity).
  split; [exact H|]. split; [reflexivity|].
  intros action current.
  apply (proj2 (proj2 (proj2 (proj2 (proj2
           (renderServerStatus_controls ProcessState (fun p => p) sampleStart
              sampleStop (js "http://127.0.0.1:14096") running H)))))
           (js "Restart Server") [stopServer; startServer; rerender]
           action current).
  cbn. auto.
Defined.

Example parseInt_8080 : parseInt (js "8080") 10 = Num 8080.
Proof. reflexivity. Qed.

Example parseInt_lenient : parseInt (js "  80abc") 10 = Num 80.
Proof. reflexivity. Qed.

Example parseInt_nan : parseInt (js "abc") 10 = NaN.
Proof. reflexivity. Qed.

Example parseInt_neg : parseInt (js "-12.5") 10 = Num (-12).
Proof. reflexivity. Qed.

Example expandTilde_sub :
  expandTilde (js "/home/u") (js "~/proj") = js "/home/u/proj".
Proof. reflexivity. Qed.


(** * Further properties *)

(** ** The Port field and [parseInt] *)

Lemma digitValue_digit (n : N) :
  (n < 10)%N -> digitValue (48 + n) = Some (Z.of_N n).
Proof.
  intros H. unfold digitValue.
  replace ((48 <=? 48 + n)%N) with true by (symmetry; apply N.leb_le; lia).
  replace ((48 + n <=? 57)%N) with true by (symmetry; apply N.leb_le; lia).
  cbn [andb]. do 2 f_equal. lia.
Qed.

Lemma digitsOf_fuel (fuel : nat) (n : N) :
  (10 <= n)%N -> (n < 2 ^ N.of_nat (S fuel))%N ->
  (n / 10 < 2 ^ N.of_nat fuel)%N /\ (0 < fuel)%nat.
Proof.
  intros Hn Hlt. rewrite Nat2N.inj_succ, N.pow_succ_r' in Hlt.
  assert (n / 10 < 2 ^ N.of_nat fuel)%N as H.
  { apply N.Div0.div_lt_upper_bound. lia. }
  split; [exact H|].
  destruct fuel; [|lia]. cbn in H.
  assert (1 <= n / 10)%N by (apply N.div_le_lower_bound; lia). lia.
Qed.

(** Reading the digits of [n] gives [n], whatever follows them. *)
Lemma readDigits_digitsOf (fuel : nat) :
  forall (n : N) (rest : jsstring) (acc : option Z),
    (0 < fuel)%nat -> (n < 2 ^ N.of_nat fuel)%N ->
    match acc with Some a => a | None => 0%Z end = 0%Z ->
    readDigits 10 (digitsOf fuel n ++ rest) acc
    = readDigits 10 rest (Some (Z.of_N n)).
Proof.
  induction fuel as [|fuel IH]; intros n rest acc Hf Hn Hacc; [lia|].
  cbn [digitsOf]. destruct (N.ltb_spec n 10) as [Hlt|Hge].
  - cbn [app readDigits]. rewrite (digitValue_digit n Hlt).
    replace (Z.of_N n <? 10)%Z with true by (symmetry; apply Z.ltb_lt; lia).
    rewrite Hacc. replace (10 * 0 + Z.of_N n)%Z with (Z.of_N n) by lia.
    reflexivity.
  - destruct (digitsOf_fuel fuel n Hge Hn) as [Hn' Hf'].
    rewrite <- app_assoc. rewrite (IH _ _ acc Hf' Hn' Hacc).
    cbn [app readDigits].
    assert (n mod 10 < 10)%N as Hm by (apply N.mod_lt; lia).
    rewrite (digitValue_digit _ Hm).
    replace (Z.of_N (n mod 10) <? 10)%Z with true
      by (symmetry; apply Z.ltb_lt; lia).
    replace (10 * Z.of_N (n / 10) + Z.of_N (n mod 10))%Z with (Z.of_N n);
      [reflexivity|].
    rewrite (N.div_mod n 10) at 1 by lia. lia.
Qed.

Lemma digitsOf_head (fuel : nat) :
  forall n : N,
    (0 < fuel)%nat -> (n < 2 ^ N.of_nat fuel)%N ->
    exists c r, digitsOf fuel n = c :: r /\ isDecimalDigit c = true.
Proof.
  induction fuel as [|fuel IH]; intros n Hf Hn; [lia|].
  cbn [digitsOf]. destruct (N.ltb_spec n 10) as [Hlt|Hge].
  - exists (48 + n)%N, []. split; [reflexivity|].
    unfold isDecimalDigit. apply andb_true_iff. split; apply N.leb_le; lia.
  - destruct (digitsOf_fuel fuel n Hge Hn) as [Hn' Hf'].
    destruct (IH _ Hf' Hn') as (c & r & E & Hc).
    exists c, (r ++ [(48 + n mod 10)%N]). rewrite E. now split.
Qed.

Lemma decimal_fuel (n : N) :
  (n < 2 ^ N.of_nat (S (N.to_nat (N.log2 n))))%N.
Proof.
  rewrite Nat2N.inj_succ, N2Nat.id.
  destruct n as [|p]; [reflexivity|].
  apply N.log2_spec. lia.
Qed.

Lemma digit_not_space (c : N) :
  isDecimalDigit c = true ->
  isWhiteSpace c = false /\ (c =? MINUS)%N = false /\ (c =? PLUS)%N = false.
Proof.
  unfold isDecimalDigit, isWhiteSpace, MINUS, PLUS. intros H.
  apply andb_true_iff in H as [H1 H2].
  apply N.leb_le in H1. apply N.leb_le in H2.
  repeat match goal with
    | |- context [(?a <=? ?b)%N] =>
        destruct (N.leb_spec a b); try lia
    | |- context [(?a =? ?b)%N] =>
        destruct (N.eqb_spec a b); try lia
    end;
    try (cbn; auto).
Qed.

(** [parseInt] in base 10: white space, a sign, digits. *)
Lemma parseInt_10 (input : jsstring) :
  parseInt input 10
  = match
      readDigits 10
        (if startsWith (trimStart input) [MINUS]
            || startsWith (trimStart input) [PLUS]
         then skipn 1 (trimStart input) else trimStart input)
        None
    with
    | None => NaN
    | Some mathInt =>
        Num ((if startsWith (trimStart input) [MINUS] then -1 else 1)
             * mathInt)
    end.
Proof. reflexivity. Qed.

(** [parseInt] reads back what [toString] writes for a natural number. *)
Lemma parseInt_decimal (n : N) : parseInt (decimal n) 10 = Num (Z.of_N n).
Proof.
  unfold decimal.
  destruct (digitsOf_head (S (N.to_nat (N.log2 n))) n
              (Nat.lt_0_succ _) (decimal_fuel n)) as (c & r & E & Hc).
  destruct (digit_not_space c Hc) as (Hw & Hm & Hp).
  pose proof (readDigits_digitsOf (S (N.to_nat (N.log2 n))) n [] None
                (Nat.lt_0_succ _) (decimal_fuel n) eq_refl) as Hr.
  rewrite app_nil_r in Hr. rewrite E in *.
  rewrite parseInt_10. cbn [trimStart]. rewrite Hw.
  cbn [startsWith]. rewrite Hm, Hp. cbn [andb orb].
  rewrite Hr. cbn [readDigits]. f_equal. lia.
Qed.

Lemma set_port_same (s : OpenCodeSettings) : set_port (port s) s = s.
Proof. destruct s; reflexivity. Qed.

(** X2: what [display] shows can be typed back without effect.  When the
    stored port is valid and the hostname and the executable path are not
    empty, the Port field is initialised with a text, and the change
    handler of each immediate field, given the value the field was
    initialised with, leaves the settings exactly as they are. *)
Theorem displayed_values_round_trip (w : World) :
  validPort (port (settings w)) ->
  hostname (settings w) <> [] ->
  opencodePath (settings w) <> [] ->
  exists text,
    portText (displayedValues (settings w)) = Some text
    /\ settings (snd (onChange_port text w)) = settings w
    /\ settings (snd (onChange_hostname
                        (hostnameText (displayedValues (settings w))) w))
       = settings w
    /\ settings (snd (onChange_opencodePath
                        (opencodePathText (displayedValues (settings w))) w))
       = settings w
    /\ settings (snd (onChange_autoStart
                        (autoStartToggle (displayedValues (settings w))) w))
       = settings w.
Proof.
  intros (z & Hz & Hrange) Hh Hp.
  destruct w as [s tr]. cbn [settings] in *.
  exists (decimal (Z.abs_N z)). split.
  - unfold displayedValues. cbn [portText]. rewrite Hz. cbn [toString].
    replace (Z.abs z <? 10 ^ 21)%Z with true
      by (symmetry; apply Z.ltb_lt; lia).
    replace (z <? 0)%Z with false by (symmetry; apply Z.ltb_ge; lia).
    reflexivity.
  - assert (parseInt (decimal (Z.abs_N z)) 10 = port s) as E.
    { rewrite parseInt_decimal, Hz. f_equal. lia. }
    split.
    + unfold onChange_port. rewrite E.
      assert (validPort (port s)) as Hv by (exists z; auto).
      apply validPort_dec in Hv. rewrite Hv.
      cbn. apply set_port_same.
    + destruct s as [p h o d a]. cbn in *.
      destruct h; [congruence|]. destruct o; [congruence|].
      repeat split.
Qed.

Lemma displayed_values_round_trip_witness :
  validPort (port (settings sampleWorld))
  /\ exists text,
       portText (displayedValues (settings sampleWorld)) = Some text
       /\ settings (snd (onChange_port text sampleWorld))
          = settings sampleWorld.
Proof.
  assert (validPort (port (settings sampleWorld))) as H.
  { exists 14096%Z. split; [reflexivity | lia]. }
  split; [exact H|].
  destruct (displayed_values_round_trip sampleWorld H)
    as (text & E & Hp & _); [discriminate | discriminate |].
  exists text. split; assumption.
Defined.

Lemma readDigits_stop (c : N) (rest : jsstring) :
  isDecimalDigit c = false ->
  forall (s : jsstring) (acc : option Z),
    readDigits 10 (s ++ c :: rest) acc = readDigits 10 s acc.
Proof.
  intros Hc. induction s as [|d s IH]; intros acc.
  - cbn [app readDigits]. unfold digitValue.
    unfold isDecimalDigit in Hc. rewrite Hc.
    destruct ((97 <=? c) && (c <=? 122))%N eqn:E1.
    + apply andb_true_iff in E1 as [E1 _]. apply N.leb_le in E1.
      replace (Z.of_N (c - 87) <? 10)%Z with false
        by (symmetry; apply Z.ltb_ge; lia).
      reflexivity.
    + destruct ((65 <=? c) && (c <=? 90))%N eqn:E2; [|reflexivity].
      apply andb_true_iff in E2 as [E2 _]. apply N.leb_le in E2.
      replace (Z.of_N (c - 55) <? 10)%Z with false
        by (symmetry; apply Z.ltb_ge; lia).
      reflexivity.
  - cbn [app readDigits]. destruct (digitValue d) as [v|]; [|reflexivity].
    destruct (v <? 10)%Z; [apply IH | reflexivity].
Qed.

Lemma trimStart_app (s t : jsstring) :
  trimStart s <> [] -> trimStart (s ++ t) = trimStart s ++ t.
Proof.
  induction s as [|c s IH]; cbn [trimStart app]; intros H; [congruence|].
  destruct (isWhiteSpace c); [apply IH, H | reflexivity].
Qed.

(** [parseInt] stops at the first code unit that is no digit. *)
Lemma parseInt_ignores_tail (s : jsstring) (c : N) (rest : jsstring) :
  trimStart s <> [] -> isDecimalDigit c = false ->
  parseInt (s ++ c :: rest) 10 = parseInt s 10.
Proof.
  intros Hs Hc. rewrite !parseInt_10, (trimStart_app s (c :: rest) Hs).
  destruct (trimStart s) as [|d S]; [congruence|].
  cbn [app startsWith]. destruct ((d =? MINUS)%N && true || (d =? PLUS)%N && true).
  - cbn [skipn]. now rewrite readDigits_stop.
  - change (d :: S ++ c :: rest) with ((d :: S) ++ c :: rest).
    now rewrite readDigits_stop.
Qed.

(** X3: the Port field reads a number and ignores what follows it.  If
    the text has something other than white space in it and is followed by
    a code unit that is no decimal digit, that code unit and all after it
    make no difference to what the handler does: [8080abc] and [80.5] are
    taken as [8080] and [80]. *)
Theorem onChange_port_ignores_tail (s : jsstring) (c : N) (rest : jsstring)
    (w : World) :
  trimStart s <> [] ->
  isDecimalDigit c = false ->
  onChange_port (s ++ c :: rest) w = onChange_port s w.
Proof.
  intros Hs Hc. unfold onChange_port.
  now rewrite (parseInt_ignores_tail s c rest Hs Hc).
Qed.

Lemma onChange_port_ignores_tail_witness :
  port (settings (snd (onChange_port (js "80" ++ 46%N :: js "5") sampleWorld)))
  = Num 80.
Proof.
  rewrite (onChange_port_ignores_tail (js "80") 46%N (js "5") sampleWorld);
    [reflexivity | discriminate | reflexivity].
Defined.

Lemma readDigits_nonneg (s : jsstring) :
  forall acc : option Z,
    (0 <= match acc with Some a => a | None => 0 end)%Z ->
    match readDigits 10 s acc with
    | Some m => (0 <= m)%Z
    | None => True
    end.
Proof.
  induction s as [|c s IH]; intros acc Hacc; cbn [readDigits].
  - destruct acc; [exact Hacc | exact I].
  - assert (match acc with Some m => (0 <= m)%Z | None => True end) as Hstop
      by (destruct acc; [exact Hacc | exact I]).
    destruct (digitValue c) as [d|] eqn:Ed; [|exact Hstop].
    destruct (d <? 10)%Z; [|exact Hstop].
    apply IH.
    assert (0 <= d)%Z.
    { unfold digitValue in Ed.
      repeat match type of Ed with
        | (if ?b then _ else _) = _ => destruct b
        end; inversion Ed; lia. }
    lia.
Qed.

(** X4: a text that begins, after white space, with a minus sign never
    changes the port: the handler returns with the world as it was. *)
Theorem onChange_port_rejects_minus (value rest : jsstring) (w : World) :
  trimStart value = MINUS :: rest ->
  onChange_port value w = (Normal tt, w).
Proof.
  intros E. unfold onChange_port. rewrite parseInt_10, E.
  cbn [startsWith N.eqb MINUS Pos.eqb andb orb skipn].
  pose proof (readDigits_nonneg rest None (Z.le_refl 0)) as H.
  destruct (readDigits 10 rest None) as [m|]; [|reflexivity].
  cbn [isNaN negb gt andb].
  replace (0 <? -1 * m)%Z with false by (symmetry; apply Z.ltb_ge; lia).
  reflexivity.
Qed.

Lemma onChange_port_rejects_minus_witness :
  onChange_port (js " -8080") sampleWorld = (Normal tt, sampleWorld).
Proof.
  exact (onChange_port_rejects_minus (js " -8080") (js "8080") sampleWorld
           eq_refl).
Defined.

(** X5: none of the four immediate handlers (port, hostname, executable
    path, auto-start) fails, raises a notice or touches a field other than
    its own, the project directory least of all; when one changes the
    settings it saves them once, as they stand after the change; and the
    order in which the four fields are edited makes no difference to the
    settings that result. *)
Theorem immediate_handlers_frame (portValue hostValue pathValue : jsstring)
    (flag : bool) (w : World) :
  let wp := snd (onChange_port portValue w) in
  let wh := snd (onChange_hostname hostValue w) in
  let wo := snd (onChange_opencodePath pathValue w) in
  let wa := snd (onChange_autoStart flag w) in
  (savesOwnChange (onChange_port portValue) w
   /\ savesOwnChange (onChange_hostname hostValue) w
   /\ savesOwnChange (onChange_opencodePath pathValue) w
   /\ savesOwnChange (onChange_autoStart flag) w)
  /\ settings wp = set_port (port (settings wp)) (settings w)
  /\ settings wh = set_hostname (hostname (settings wh)) (settings w)
  /\ settings wo = set_opencodePath (opencodePath (settings wo)) (settings w)
  /\ settings wa = set_autoStart flag (settings w)
  /\ settings
       (snd (onChange_autoStart flag
               (snd (onChange_opencodePath pathValue
                       (snd (onChange_hostname hostValue wp))))))
     = settings
         (snd (onChange_port portValue
                 (snd (onChange_hostname hostValue
                         (snd (onChange_opencodePath pathValue wa)))))).
Proof.
  cbv zeta. destruct w as [[p h o d a] tr].
  unfold savesOwnChange, onChange_port.
  destruct (negb (isNaN (parseInt portValue 10))
            && gt (parseInt portValue 10) (Num 0)
            && lt (parseInt portValue 10) (Num 65536));
    cbn; repeat split; auto.
Qed.

(** ** More on validateAndSetProjectDirectory *)

Lemma trimStart_fixed (s : jsstring) :
  (forall c r, s = c :: r -> isWhiteSpace c = false) -> trimStart s = s.
Proof.
  destruct s as [|c r]; intros H; [reflexivity|].
  cbn [trimStart]. now rewrite (H c r eq_refl).
Qed.

Lemma trimStart_idem (s : jsstring) : trimStart (trimStart s) = trimStart s.
Proof.
  destruct (trimStart_head s) as [E | (c & r & E & Hc)]; rewrite E;
    [reflexivity|].
  cbn [trimStart]. now rewrite Hc.
Qed.

Lemma trimStart_split (s : jsstring) :
  exists ws, s = ws ++ trimStart s.
Proof.
  induction s as [|c s [ws IH]]; [now exists []|].
  cbn [trimStart]. destruct (isWhiteSpace c).
  - exists (c :: ws). cbn [app]. now rewrite <- IH.
  - now exists [].
Qed.

Lemma trimEnd_prefix (s : jsstring) : exists ws, s = trimEnd s ++ ws.
Proof.
  unfold trimEnd. destruct (trimStart_split (rev s)) as [ws E].
  exists (rev ws). rewrite <- rev_app_distr, <- E. now rewrite rev_involutive.
Qed.

(** Trimming twice is trimming once. *)
Lemma trim_idem (s : jsstring) : trim (trim s) = trim s.
Proof.
  unfold trim.
  assert (trimStart (trimEnd (trimStart s)) = trimEnd (trimStart s)) as E.
  { apply trimStart_fixed. intros c r Hb.
    destruct (trimEnd_prefix (trimStart s)) as [ws Ea].
    rewrite Hb in Ea.
    destruct (trimStart_head s) as [E0 | (c' & r' & E0 & Hc)].
    - rewrite E0 in Ea. discriminate.
    - rewrite E0 in Ea. inversion Ea; subst. exact Hc. }
  rewrite E. unfold trimEnd. rewrite rev_involutive, trimStart_idem.
  reflexivity.
Qed.

Lemma not_tilde (t : jsstring) :
  startsWith t (js "~") = false ->
  eqb t (js "~") = false /\ startsWith t (js "~/") = false.
Proof.
  destruct t as [|c t]; [now split|].
  cbn. destruct (c =? 126)%N; [discriminate | now split].
Qed.

Section ProjectDirectoryMore.

Variable homedir : jsstring.
Variable fs_existsSync : jsstring -> Completion bool.
Variable fs_statSync : jsstring -> Completion Stats.
Variable plugin_updateProjectDirectory :
  jsstring -> OpenCodeSettings -> Completion unit * OpenCodeSettings.

Local Abbreviation validate :=
  (validateAndSetProjectDirectory homedir fs_existsSync fs_statSync
     plugin_updateProjectDirectory).

(** X6: white space around the input makes no difference: the handler
    does with a value what it does with the value trimmed. *)
Theorem validate_trimmed (value : jsstring) (w : World) :
  validate value w = validate (trim value) w.
Proof.
  unfold validateAndSetProjectDirectory. now rewrite trim_idem.
Qed.

(** The calls a validation adds to the trace. *)
Lemma validate_calls (value : jsstring) (w : World) :
  exists calls,
    trace (snd (validate value w)) = trace w ++ calls
    /\ (calls = [CallUpdateProjectDirectory []] /\ trim value = []
        \/ (exists text, calls = [NewNotice text]) /\ trim value <> []
        \/ (exists text,
              calls = [CallExistsSync (expandTilde homedir (trim value));
                       NewNotice text])
           /\ fs_existsSync (expandTilde homedir (trim value)) <> Normal true
        \/ (exists text,
              calls = [CallExistsSync (expandTilde homedir (trim value));
                       CallStatSync (expandTilde homedir (trim value));
                       NewNotice text])
           /\ (forall stat,
                 fs_statSync (expandTilde homedir (trim value)) = Normal stat ->
                 isDirectory stat = false)
        \/ calls = [CallExistsSync (expandTilde homedir (trim value));
                    CallStatSync (expandTilde homedir (trim value));
                    CallUpdateProjectDirectory
                      (expandTilde homedir (trim value))]
           /\ trim value <> []
           /\ notAbsolute (trim value) = false
           /\ fs_existsSync (expandTilde homedir (trim value)) = Normal true
           /\ exists stat,
                fs_statSync (expandTilde homedir (trim value)) = Normal stat
                /\ isDirectory stat = true).
Proof.
  destruct (trim value) as [|c t] eqn:Et.
  - exists [CallUpdateProjectDirectory []]. split; [|now left].
    unfold validateAndSetProjectDirectory. rewrite Et. cbn [truthy negb].
    unfold updateProjectDirectory.
    destruct (plugin_updateProjectDirectory [] (settings w)). reflexivity.
  - assert (trim value <> []) as Hne by (rewrite Et; discriminate).
    rewrite (validate_nonempty homedir fs_existsSync fs_statSync
               plugin_updateProjectDirectory value w Hne).
    cbv zeta. rewrite Et.
    destruct (notAbsolute (c :: t)) eqn:Ha.
    { eexists. split; [reflexivity|]. right. left.
      split; [eexists; reflexivity | discriminate]. }
    destruct (fs_existsSync _) as [[|]|exn] eqn:Ee.
    2,3: eexists; (split; [reflexivity|]); right; right; left;
         (split; [eexists; reflexivity | discriminate]).
    destruct (fs_statSync _) as [stat|exn] eqn:Es.
    2: { eexists. split; [reflexivity|]. right. right. right. left.
         split; [eexists; reflexivity | discriminate]. }
    destruct (isDirectory stat) eqn:Hd.
    + unfold updateProjectDirectory. cbn [settings trace].
      destruct (plugin_updateProjectDirectory _ _) as [c0 s'].
      cbn [snd trace]. rewrite <- app_assoc. cbn [app].
      eexists. split; [reflexivity|]. right. right. right. right.
      repeat split; try discriminate. now exists stat.
    + eexists. split; [reflexivity|]. right. right. right. left.
      split; [eexists; reflexivity|].
      intros stat' E. inversion E; subst. exact Hd.
Qed.

(** X7: the handler never hands [updateProjectDirectory] a path it has
    not seen to be a directory.  A call it makes carries either the empty
    string, for an input that is all white space, or the expanded input,
    for which [existsSync] answered true and [statSync] a directory. *)
Theorem validate_stores_checked (value : jsstring) (w : World) :
  exists calls,
    trace (snd (validate value w)) = trace w ++ calls
    /\ forall directory,
         In (CallUpdateProjectDirectory directory) calls ->
         (directory = [] /\ forallb isWhiteSpace value = true)
         \/ (directory = expandTilde homedir (trim value)
             /\ fs_existsSync directory = Normal true
             /\ exists stat,
                  fs_statSync directory = Normal stat
                  /\ isDirectory stat = true).
Proof.
  destruct (validate_calls value w) as (calls & E & H).
  exists calls. split; [exact E|]. intros d Hin.
  destruct H as [[-> Ht]|[[[text ->] _]|[[[text ->] _]|[[[text ->] _]|H]]]].
  - destruct Hin as [Hd|[]]. inversion Hd; subst.
    left. split; [reflexivity | now apply trim_nil].
  - destruct Hin as [Hd|[]]. discriminate.
  - destruct Hin as [Hd|[Hd|[]]]; discriminate.
  - destruct Hin as [Hd|[Hd|[Hd|[]]]]; discriminate.
  - destruct H as (-> & _ & _ & He & Hs).
    destruct Hin as [Hd|[Hd|[Hd|[]]]]; try discriminate.
    inversion Hd; subst. right. auto.
Qed.

(** X8: a validation ends in exactly one of two ways: one call of
    [updateProjectDirectory] or one notice, never both and never
    neither. *)
Theorem validate_one_outcome (value : jsstring) (w : World) :
  exists calls outcome,
    trace (snd (validate value w)) = trace w ++ calls
    /\ filter isOutcome calls = [outcome].
Proof.
  destruct (validate_calls value w) as (calls & E & H).
  exists calls.
  destruct H as [[-> _]|[[[text ->] _]|[[[text ->] _]|[[[text ->] _]|H]]]];
    try (eexists; split; [exact E | reflexivity]).
  destruct H as (-> & _). eexists; split; [exact E | reflexivity].
Qed.

End ProjectDirectoryMore.

(** X9: for an input that does not begin with a tilde once trimmed, the
    home directory plays no part: the handler does the same under any two
    of them. *)
Theorem validate_without_tilde (homedir1 homedir2 : jsstring)
    (fs_existsSync : jsstring -> Completion bool)
    (fs_statSync : jsstring -> Completion Stats)
    (plugin_updateProjectDirectory :
       jsstring -> OpenCodeSettings -> Completion unit * OpenCodeSettings)
    (value : jsstring) (w : World) :
  startsWith (trim value) (js "~") = false ->
  validateAndSetProjectDirectory homedir1 fs_existsSync fs_statSync
    plugin_updateProjectDirectory value w
  = validateAndSetProjectDirectory homedir2 fs_existsSync fs_statSync
      plugin_updateProjectDirectory value w.
Proof.
  intros H. destruct (not_tilde _ H) as [H1 H2].
  unfold validateAndSetProjectDirectory.
  now rewrite !(expandTilde_other _ _ H1 H2).
Qed.

Lemma validate_without_tilde_witness :
  validateAndSetProjectDirectory (js "/home/u") sampleExists sampleStat
    sampleUpdate (js "/home/u/proj") sampleWorld
  = validateAndSetProjectDirectory (js "/Users/v") sampleExists sampleStat
      sampleUpdate (js "/home/u/proj") sampleWorld.
Proof.
  exact (validate_without_tilde (js "/home/u") (js "/Users/v") sampleExists
           sampleStat sampleUpdate (js "/home/u/proj") sampleWorld eq_refl).
Defined.

(** ** More on expandTilde *)

(** X10: when the home directory begins neither with a tilde nor with a
    dollar sign, what [expandTilde] returns for [~] or for a path under
    [~/] has no leading tilde, and expanding is idempotent: an expanded
    path expands to itself. *)
Theorem expandTilde_idempotent (homedir path : jsstring) :
  startsWith homedir (js "~") = false ->
  startsWith homedir (js "$") = false ->
  expandTilde homedir (expandTilde homedir path) = expandTilde homedir path
  /\ (path = js "~" \/ startsWith path (js "~/") = true ->
      startsWith (expandTilde homedir path) (js "~") = false).
Proof.
  intros Ht Hd.
  assert (forall t, startsWith t (js "~") = false ->
                    expandTilde homedir t = t) as Hfix.
  { intros t H. destruct (not_tilde t H). now apply expandTilde_other. }
  assert (path = js "~" \/ startsWith path (js "~/") = true ->
          startsWith (expandTilde homedir path) (js "~") = false) as Hno.
  { unfold expandTilde. intros [->|Hs]; [exact Ht|].
    destruct (eqb path (js "~")); [exact Ht|]. rewrite Hs.
    apply startsWith_spec in Hs as [r ->].
    change (js "~/" ++ r) with (js "~" ++ (js "/" ++ r)).
    rewrite replace_leading.
    destruct homedir as [|c h]; [reflexivity|].
    cbn in Ht, Hd. cbn [GetSubstitution].
    unfold DOLLAR. destruct (c =? 36)%N; [discriminate|].
    cbn. destruct (c =? 126)%N; [discriminate | reflexivity]. }
  split; [|exact Hno].
  destruct (eqb path (js "~")) eqn:E1.
  - apply eqb_eq in E1. apply Hfix, Hno. now left.
  - destruct (startsWith path (js "~/")) eqn:E2.
    + apply Hfix, Hno. now right.
    + now rewrite (expandTilde_other homedir path E1 E2),
        (expandTilde_other homedir path E1 E2).
Qed.

Lemma expandTilde_idempotent_witness :
  expandTilde (js "/home/u") (expandTilde (js "/home/u") (js "~/proj"))
  = js "/home/u/proj".
Proof.
  exact (proj1 (expandTilde_idempotent (js "/home/u") (js "~/proj")
                  eq_refl eq_refl)).
Defined.

(** ** More on the debounce *)

Section EventLoopMore.

Variable homedir : jsstring.
Variable fs_existsSync : jsstring -> Completion bool.
Variable fs_statSync : jsstring -> Completion Stats.
Variable plugin_updateProjectDirectory :
  jsstring -> OpenCodeSettings -> Completion unit * OpenCodeSettings.

Local Abbreviation validate :=
  (validateAndSetProjectDirectory homedir fs_existsSync fs_statSync
     plugin_updateProjectDirectory).

Local Abbreviation elapse :=
  (EventLoop.elapse homedir fs_existsSync fs_statSync
     plugin_updateProjectDirectory).

Local Abbreviation step :=
  (EventLoop.step homedir fs_existsSync fs_statSync
     plugin_updateProjectDirectory).

Local Abbreviation run :=
  (EventLoop.run homedir fs_existsSync fs_statSync
     plugin_updateProjectDirectory).

Lemma run_snoc (events : list Event) (ev : Event) (tab : Tab) :
  run (events ++ [ev]) tab = step (run events tab) ev.
Proof. unfold EventLoop.run. now rewrite fold_left_app. Qed.

Lemma lastEdit_snoc (events : list Event) (ev : Event) :
  lastEdit (events ++ [ev])
  = match ev with
    | Edit value => Some value
    | Wait _ => lastEdit events
    end.
Proof. unfold lastEdit. now rewrite fold_left_app. Qed.

(** X11: whatever the user does, at most one validation is pending, and
    it is that of the latest edit: after any events on a new tab the timer
    queue is empty or holds one timer, which closes over the value of the
    last edit and is due later than now and no later than 500 ms from
    now. *)
Theorem pending_is_last_edit (events : list Event) (w : World) :
  timers (run events (newTab w)) = []
  \/ exists h d value,
       timers (run events (newTab w)) = [mkTimer h d value]
       /\ lastEdit events = Some value
       /\ (now (run events (newTab w)) < d
           <= now (run events (newTab w)) + 500)%N.
Proof.
  induction events as [|ev events IH] using rev_ind; [now left|].
  pose proof (onePending_run homedir fs_existsSync fs_statSync
                plugin_updateProjectDirectory events (newTab w)
                (onePending_newTab w)) as Hone.
  rewrite run_snoc, lastEdit_snoc.
  destruct ev as [value|ms]; cbn [EventLoop.step].
  - right. rewrite onChange_projectDirectory_spec by assumption.
    cbn [timers now]. do 3 eexists. split; [reflexivity|].
    split; [reflexivity | lia].
  - unfold EventLoop.elapse. cbn [timers now].
    destruct IH as [E | (h & d & value & E & Hl & Hd)]; rewrite E;
      [now left|].
    cbn [filter]. unfold EventLoop.isDue. cbn [due].
    destruct (N.leb_spec d (now (run events (newTab w)) + ms));
      cbn [negb]; [now left|].
    right. exists h, d, value. split; [reflexivity|].
    split; [exact Hl | lia].
Qed.

Lemma edit_then_quiet (value : jsstring) (quiet : N) (tab : Tab) :
  onePending tab -> (500 <= quiet)%N ->
  elapse quiet (onChange_projectDirectory value tab)
  = mkTab (snd (validate value (world tab))) (Some (nextHandle tab)) []
      (now tab + quiet) (Pos.succ (nextHandle tab))
      (fired tab ++ [nextHandle tab]).
Proof.
  intros Hone Hq. rewrite onChange_projectDirectory_spec by assumption.
  unfold EventLoop.elapse. cbn [timers now world fired validateTimeout
                                 nextHandle filter].
  replace (EventLoop.isDue (now tab + quiet)
             (mkTimer (nextHandle tab) (now tab + 500) value)) with true
    by (symmetry; apply N.leb_le; cbn; lia).
  reflexivity.
Qed.

(** X12: the debounce loses no edit that is followed by quiet.  When
    every edit is followed by 500 ms or more without another, each value
    is validated, once and in the order typed, and nothing is left
    pending. *)
Theorem spaced_edits_all_validated (edits : list (jsstring * N)) (tab : Tab) :
  onePending tab ->
  Forall (fun e => (500 <= snd e)%N) edits ->
  world (run (flat_map (fun e => [Edit (fst e); Wait (snd e)]) edits) tab)
  = fold_left (fun w e => snd (validate (fst e) w)) edits (world tab)
  /\ (edits <> [] ->
      timers (run (flat_map (fun e => [Edit (fst e); Wait (snd e)]) edits)
                tab)
      = []).
Proof.
  revert tab. induction edits as [|[value quiet] edits IH];
    intros tab Hone Hq.
  - split; [reflexivity | congruence].
  - inversion Hq as [|? ? Hq1 Hq2]; subst. cbn [snd] in Hq1.
    cbn [flat_map app fst snd].
    change (run (Edit value :: Wait quiet :: ?evs) tab)
      with (run evs (elapse quiet (onChange_projectDirectory value tab))).
    pose proof (edit_then_quiet value quiet tab Hone Hq1) as E.
    assert (onePending (elapse quiet (onChange_projectDirectory value tab)))
      as Hone' by (rewrite E; constructor).
    destruct (IH _ Hone' Hq2) as [Hw Ht].
    split.
    + rewrite Hw, E. reflexivity.
    + intros _. destruct edits as [|e edits'].
      * cbn [flat_map EventLoop.run fold_left]. rewrite E. reflexivity.
      * apply Ht. discriminate.
Qed.

End EventLoopMore.

Lemma spaced_edits_all_validated_witness :
  trace (world (EventLoop.run (js "/home/u") sampleExists sampleStat
                  sampleUpdate
                  [Edit (js "notes"); Wait 700; Edit (js "~/proj"); Wait 500]
                  (newTab sampleWorld)))
  = [NewNotice
       (js "Project directory must be an absolute path (or start with ~)");
     CallExistsSync (js "/home/u/proj"); CallStatSync (js "/home/u/proj");
     CallUpdateProjectDirectory (js "/home/u/proj")].
Proof.
  assert (Forall (fun e : jsstring * N => (500 <= snd e)%N)
            [(js "notes", 700%N); (js "~/proj", 500%N)]) as H.
  { repeat constructor; cbn; lia. }
  exact (f_equal trace
           (proj1 (spaced_edits_all_validated (js "/home/u") sampleExists
                     sampleStat sampleUpdate
                     [(js "notes", 700%N); (js "~/proj", 500%N)]
                     (newTab sampleWorld) (onePending_newTab sampleWorld) H))).
Defined.

(** ** More on the server status panel *)

(** X13: the panel tells the four states apart, and it links to the
    server exactly when the server runs: two states with the same panel
    are the same state, and the panel has an anchor if and only if the
    state is [running], in which case it is one anchor, showing and
    targeting [getServerUrl()], whose listener opens that URL. *)
Theorem renderServerStatus_tells_state (url : jsstring)
    (state1 state2 : ProcessState) :
  (renderServerStatus url state1 = renderServerStatus url state2 <->
   state1 = state2)
  /\ (anchorsOf (renderServerStatus url state1) <> [] <-> state1 = running)
  /\ (forall link,
        In link (anchorsOf (renderServerStatus url state1)) ->
        link = (url, url, [preventDefault; windowOpen url])).
Proof.
  split; [|split].
  - split; [|now intros ->].
    destruct state1, state2; intros H; try reflexivity;
      cbv in H; discriminate.
  - destruct state1; cbn; split; intros H;
      try congruence; try discriminate; now elim H.
  - destruct state1; cbn; intros link H;
      repeat (destruct H as [H|H]; try (now symmetry)); now elim H.
Qed.
